(** * NewsQuest: the riddle session, the history store and the generation client

    A shallow embedding of the TypeScript sources
    - [types.ts]                      (module [Types])
    - [services/storageService.ts]    (module [Storage])
    - [services/geminiService.ts]     (module [Gemini])
    - [components/GameScreen.tsx]     (modules [GameScreen], [Share])
    - [components/HistoryScreen.tsx]  (module [HistoryScreen])
    - [App.tsx]                       (modules [App], [Menu])

    followed by the properties of the specification, one theorem per claim.

    Conventions of the embedding.
    - A JavaScript exception is a value of [Outcome]: [Return a] or
      [Throw e]; [try .. catch] is [try_catch].  An error that leaves an
      event handler of [GameScreen] is kept among the effects of the world,
      with the state updates the handler made before it.
    - What the environment supplies (the clock, [Math.random], whether
      [localStorage.setItem] is refused for lack of room, the replies of
      the generative service) is an explicit argument.
    - A text that is read with [JSON.parse] is represented by what
      [JSON.parse] makes of it: the value it yields, or the fact that it
      throws.
    - React state is a record; one event handler is one function from the
      committed state to the next committed state, the way discrete events
      are flushed one after the other. *)

From Stdlib Require Import ZArith List String Ascii Bool Lia Arith.
From Stdlib Require Import DecimalString DecimalPos DecimalZ Sorted.
From Equations Require Import Equations.
Import ListNotations.
Local Open Scope string_scope.
Local Open Scope Z_scope.

(** ** JavaScript values the program relies on *)

Module Js.

(** An [Error] object: its [name] and its [message]. *)
Record Error := mkError { name : string; message : string }.

Definition error (msg : string) : Error := mkError "Error" msg.
Definition SyntaxError : Error := mkError "SyntaxError" "Unexpected token".
Definition QuotaExceededError : Error :=
  mkError "QuotaExceededError" "The quota has been exceeded.".
Definition URIError : Error := mkError "URIError" "URI malformed".

(** The result of evaluating code that may throw. *)
Inductive Outcome (A : Type) : Type :=
| Return (a : A)
| Throw (e : Error).
Arguments Return {A} a.
Arguments Throw {A} e.

Definition bind {A B} (m : Outcome A) (k : A -> Outcome B) : Outcome B :=
  match m with
  | Return a => k a
  | Throw e => Throw e
  end.

(** [try { m } catch (e) { h e }] *)
Definition try_catch {A} (m : Outcome A) (h : Error -> Outcome A) : Outcome A :=
  match m with
  | Return a => Return a
  | Throw e => h e
  end.

(** A number as the streak counter uses it: an integer, or [NaN] (what
    [parseInt] answers on a text without digits).  Integers stand for the
    doubles that represent them exactly. *)
Inductive Number : Type :=
| Int (n : Z)
| NaN.

(** The double nearest to an integer, the way an arithmetic result is
    rounded: a double holds 53 significant bits, so an integer of more bits
    goes to the nearest multiple of the power of two that is left over, and
    half way to the one whose quotient is even.  (The overflow to
    [Infinity], from 2^1024 on, is not part of it.) *)
Definition nearest_double (m : Z) : Z :=
  let a := Z.abs m in
  let q := 2 ^ Z.max 0 (Z.log2 a - 52) in
  let k := a / q in
  let r := a mod q in
  let k := if 2 * r <? q then k
           else if q <? 2 * r then k + 1
           else if Z.even k then k else k + 1 in
  Z.sgn m * (k * q).

(** [x + 1]: exact up to 2^53, where the double stays. *)
Definition succ (x : Number) : Number :=
  match x with
  | Int n => Int (nearest_double (n + 1))
  | NaN => NaN
  end.

(** [x.toString()]: the decimal digits of an integer, which is what
    JavaScript writes below 10^21. *)
Definition toString (x : Number) : string :=
  match x with
  | Int n => NilZero.string_of_int (Z.to_int n)
  | NaN => "NaN"
  end.

(** Truthiness of a string: only the empty string is falsy. *)
Definition truthy (s : string) : bool := negb (s =? "")%string.

(** Truthiness of a possibly undefined string. *)
Definition truthy_opt (s : option string) : bool :=
  match s with
  | Some s => truthy s
  | None => false
  end.

(** [a || b] on a possibly undefined string. *)
Definition or_else (a : option string) (b : string) : string :=
  match a with
  | Some s => if truthy s then s else b
  | None => b
  end.

(** White space that [parseInt] skips in front of the number. *)
Definition is_space (c : ascii) : bool :=
  let n := nat_of_ascii c in
  ((n =? 32) || (n =? 9) || (n =? 10) || (n =? 11) || (n =? 12) || (n =? 13))%nat.

Fixpoint skip_spaces (s : string) : string :=
  match s with
  | String c r => if is_space c then skip_spaces r else s
  | EmptyString => s
  end.

Definition digit_of (c : ascii) : option Z :=
  let n := nat_of_ascii c in
  if ((48 <=? n) && (n <=? 57))%nat then Some (Z.of_nat n - 48) else None.

(** The longest prefix of decimal digits, read from the left; [None] when
    there is no digit at all. *)
Fixpoint digits (s : string) (acc : option Z) : option Z :=
  match s with
  | String c r =>
      match digit_of c with
      | Some d =>
          digits r (Some (10 * match acc with Some a => a | None => 0 end + d))
      | None => acc
      end
  | EmptyString => acc
  end.

Definition of_digits (sign : Z) (s : string) : Number :=
  match digits s None with
  | Some n => Int (sign * n)
  | None => NaN
  end.

Definition reverse (s : string) : string :=
  string_of_list_ascii (rev (list_ascii_of_string s)).

(** [s.trim()] *)
Definition trim (s : string) : string :=
  reverse (skip_spaces (reverse (skip_spaces s))).

(** [parseInt(s, 10)]: the value of the digits, which is what JavaScript
    answers as long as a double holds that value. *)
Definition parseInt (s : string) : Number :=
  match skip_spaces s with
  | String "-" r => of_digits (-1) r
  | String "+" r => of_digits 1 r
  | r => of_digits 1 r
  end.

End Js.

Export Js (Outcome, Return, Throw).

Notation "x <- m ;; k" := (Js.bind m (fun x => k))
  (at level 61, m at next level, right associativity).
Notation "' pat <- m ;; k" :=
  (Js.bind m (fun x => match x with pat => k end))
  (at level 61, pat pattern, m at next level, right associativity).

(** ** types.ts *)

Module Types.

Inductive Difficulty : Type := easy | medium | hard.

Definition Difficulty_text (d : Difficulty) : string :=
  match d with
  | easy => "easy"
  | medium => "medium"
  | hard => "hard"
  end.

Module RiddleData.
Record Riddle := mkRiddle {
  image_prompt : string;
  riddle_question : string;
  choices : list string;
  answerIndex : Z;
  hints : list string;
  fun_fact : string;
  news_topic : option string;
  difficulty : option string
}.
End RiddleData.

Module HistoryItem.
Record Item := mkItem {
  id : string;
  timestamp : Z;
  topic : string;
  question : string;
  (** [undefined] when [choices[answerIndex]] is out of range *)
  answer : option string;
  fun_fact : string;
  image_url : string;
  difficulty : option string
}.
End HistoryItem.

Inductive Status : Type :=
| idle | searching | generating_riddle | generating_image
| playing | solved | failed | error | history.

Module GameState.
Record State := mkState {
  status : Status;
  riddle : option RiddleData.Riddle;
  imageUrl : option string;
  selectedAnswer : option Z;
  hintsRevealed : Z;
  error : option string;
  score : Z
}.
End GameState.

(** [GameAction]: the tag and, where the reducer reads one, the payload. *)
Inductive GameAction : Type :=
| START_SEARCH
| START_GEN_RIDDLE
| START_GEN_IMAGE
| RIDDLE_READY (payload : RiddleData.Riddle)
| IMAGE_READY (payload : string)
| ANSWER_SELECTED
| REVEAL_HINT
| RESET
| ERROR (payload : string)
| OPEN_HISTORY
| CLOSE_HISTORY.

End Types.

Export Types.

(** ** services/storageService.ts *)

Module Storage.

(** The text kept under [STORAGE_KEY], by what [JSON.parse] makes of it:
    [JsonArray h] is the text [JSON.stringify] writes for the array [h] (and
    [JSON.parse] reads back as [h]); [Garbled raw] is a text [raw] on which
    [JSON.parse] throws.  These are the texts the program writes and the
    texts it guards against; a text that [JSON.parse] reads as something
    other than an array of entries ([null], a number, an object) has no
    value here, and what is stated of a store is stated of a store without
    such a text. *)
Inductive HistoryText : Type :=
| JsonArray (h : list HistoryItem.Item)
| Garbled (raw : string).

(** [localStorage]: the two keys the application uses,
    ['newsquest_solved_history'] and ['newsquest_streak']; [None] is a key
    that is not set ([getItem] answers [null]). *)
Record LocalStorage := mkLocalStorage {
  newsquest_solved_history : option HistoryText;
  newsquest_streak : option string
}.

Definition MAX_ITEMS : nat := 12.

Definition JSON_stringify (h : list HistoryItem.Item) : HistoryText := JsonArray h.

Definition JSON_parse (t : HistoryText) : Outcome (list HistoryItem.Item) :=
  match t with
  | JsonArray h => Return h
  | Garbled _ => Throw Js.SyntaxError
  end.

(** Truthiness of a stored text: the text of an array is never empty. *)
Definition text_truthy (t : HistoryText) : bool :=
  match t with
  | JsonArray _ => true
  | Garbled raw => Js.truthy raw
  end.

(** [localStorage.setItem(STORAGE_KEY, text)]; [room] tells whether the
    browser has room for the text, and the call throws when it has not. *)
Definition setItem (room : list HistoryItem.Item -> bool)
    (h : list HistoryItem.Item) (ls : LocalStorage) : Outcome LocalStorage :=
  if room h
  then Return (mkLocalStorage (Some (JSON_stringify h)) (newsquest_streak ls))
  else Throw Js.QuotaExceededError.

(** [getHistory] *)
Definition getHistory (ls : LocalStorage) : Outcome (list HistoryItem.Item) :=
  Js.try_catch
    (match newsquest_solved_history ls with
     | Some stored => if text_truthy stored then JSON_parse stored else Return []
     | None => Return []
     end)
    (fun _ => Return []).

(** What the handlers read from their environment: the two readings of
    [Date.now()], the text of [Math.random().toString(36).substring(2)],
    and the room left in [localStorage], for the text of a history under
    [STORAGE_KEY] and for the text of a streak under ['newsquest_streak']. *)
Record Env := mkEnv {
  now_id : Z;
  random36 : string;
  now_timestamp : Z;
  room : list HistoryItem.Item -> bool;
  streak_room : string -> bool
}.

(** [choices[answerIndex]]: [undefined] outside the array. *)
Definition index (choices : list string) (i : Z) : option string :=
  if i <? 0 then None else nth_error choices (Z.to_nat i).

Definition newItem (env : Env) (riddle : RiddleData.Riddle) (imageUrl : string)
    : HistoryItem.Item :=
  HistoryItem.mkItem
    (Js.toString (Js.Int (now_id env)) ++ random36 env)
    (now_timestamp env)
    (Js.or_else (RiddleData.news_topic riddle) "Mystery Topic")
    (RiddleData.riddle_question riddle)
    (index (RiddleData.choices riddle) (RiddleData.answerIndex riddle))
    (RiddleData.fun_fact riddle)
    imageUrl
    None.

(** [history.pop()]: the array without its last element. *)
Definition pop (h : list HistoryItem.Item) : list HistoryItem.Item := removelast h.

(** The loop [while (history.length > 0) { try { setItem; return } catch
    { if (history.length > 1) pop else break } }] followed by
    [return history]. *)
Equations? persist (room : list HistoryItem.Item -> bool)
    (history : list HistoryItem.Item) (ls : LocalStorage)
    : Outcome (list HistoryItem.Item * LocalStorage)
    by wf (List.length history) lt :=
persist room [] ls := Return ([], ls);
persist room (x :: rest) ls with setItem room (x :: rest) ls := {
  | Return ls' => Return (x :: rest, ls')
| Throw _ with rest := {
    | [] => Return ([x], ls)
    | y :: rest' => persist room (pop (x :: y :: rest')) ls } }.
Proof.
  assert (H : forall (l : list HistoryItem.Item) a,
             List.length (removelast (a :: l)) = List.length l).
  { induction l as [|b l IH]; intro a; [reflexivity|].
    change (S (List.length (removelast (b :: l))) = S (List.length l)).
    now rewrite IH. }
  change (S (List.length (removelast (y :: rest'))) < S (S (List.length rest')))%nat.
  rewrite H. lia.
Defined.

(** [saveToHistory] *)
Definition saveToHistory (env : Env) (riddle : RiddleData.Riddle)
    (imageUrl : string) (ls : LocalStorage)
    : Outcome (list HistoryItem.Item * LocalStorage) :=
  let newItem := newItem env riddle imageUrl in
  history <- getHistory ls ;;
  if existsb (fun h => HistoryItem.question h =? HistoryItem.question newItem)%string
       history
  then Return (history, ls)
  else
    let history := newItem :: history in
    let history :=
      if (MAX_ITEMS <? List.length history)%nat then firstn MAX_ITEMS history
      else history in
    persist (room env) history ls.

(** [clearHistory] *)
Definition clearHistory (ls : LocalStorage)
    : list HistoryItem.Item * LocalStorage :=
  ([], mkLocalStorage None (newsquest_streak ls)).

End Storage.

(** ** services/geminiService.ts

    The generative service is outside the program: what
    [ai.models.generateContent] answers is an argument of each function.  The
    request (model name, prompt, system instruction, schema) does not enter
    what the functions do with the reply and is left out. *)

Module Gemini.

(** The text of a riddle reply, by what [JSON.parse] makes of it:
    [RiddleJson d] is the text of an object with the six fields of
    [riddleResponseSchema], typed as the schema types them (strings, arrays of
    strings of any length, an integer of any value), possibly with the two
    optional fields; [NotAnObject] is the text of [null] or of a primitive;
    [Malformed raw] is a text on which [JSON.parse] throws. *)
Inductive RiddleText : Type :=
| RiddleJson (d : RiddleData.Riddle)
| NotAnObject (raw : string)
| Malformed (raw : string).

Definition riddle_text_truthy (t : RiddleText) : bool :=
  match t with
  | RiddleJson _ => true
  | NotAnObject raw => Js.truthy raw
  | Malformed raw => Js.truthy raw
  end.

(** A settled [await ai.models.generateContent(..)]: the promise is rejected,
    or resolved with a response of which the function reads [what]. *)
Inductive Reply (A : Type) : Type :=
| Rejected (e : Js.Error)
| Resolved (what : A).
Arguments Rejected {A} e.
Arguments Resolved {A} what.

Definition await {A} (r : Reply A) : Outcome A :=
  match r with
  | Rejected e => Throw e
  | Resolved a => Return a
  end.

(** [fetchTrendingNews]; the reply carries [response.text]. *)
Definition fetchTrendingNews (reply : Reply (option string)) : Outcome string :=
  Js.try_catch
    (text <- await reply ;;
     match text with
     | Some t =>
         if Js.truthy t then Return t
         else Throw (Js.error "Failed to find trending news.")
     | None => Throw (Js.error "Failed to find trending news.")
     end)
    (fun _ =>
       Throw (Js.error "Could not fetch trending news. Please try a manual topic.")).

(** [data.news_topic = topic; data.difficulty = difficulty] *)
Definition stamp (topic : string) (difficulty : Difficulty)
    (data : RiddleData.Riddle) : RiddleData.Riddle :=
  RiddleData.mkRiddle
    (RiddleData.image_prompt data)
    (RiddleData.riddle_question data)
    (RiddleData.choices data)
    (RiddleData.answerIndex data)
    (RiddleData.hints data)
    (RiddleData.fun_fact data)
    (Some topic)
    (Some (Difficulty_text difficulty)).

(** [JSON.parse(text) as RiddleData] followed by the two assignments, which
    throw a [TypeError] on [null] and (the module being strict code) on a
    primitive. *)
Definition parse_and_stamp (topic : string) (difficulty : Difficulty)
    (t : RiddleText) : Outcome RiddleData.Riddle :=
  match t with
  | RiddleJson d => Return (stamp topic difficulty d)
  | NotAnObject _ => Throw (Js.mkError "TypeError" "Cannot set properties")
  | Malformed _ => Throw Js.SyntaxError
  end.

(** [generateRiddleFromTopic]; the reply carries [response.text]. *)
Definition generateRiddleFromTopic (topic : string) (difficulty : Difficulty)
    (reply : Reply (option RiddleText)) : Outcome RiddleData.Riddle :=
  Js.try_catch
    (text <- await reply ;;
     match text with
     | Some t =>
         if riddle_text_truthy t then parse_and_stamp topic difficulty t
         else Throw (Js.error "No data returned from Gemini.")
     | None => Throw (Js.error "No data returned from Gemini.")
     end)
    (fun _ => Throw (Js.error "Failed to generate riddle logic.")).

(** [part.inlineData] *)
Record InlineData := mkInlineData {
  data : option string;
  mimeType : option string
}.

Record Part := mkPart { inlineData : option InlineData }.

(** The [for (const part of parts)] loop: the data URI of the first part that
    carries inline data. *)
Fixpoint first_image (parts : list Part) : option string :=
  match parts with
  | part :: rest =>
      match inlineData part with
      | Some i =>
          match data i with
          | Some base64Data =>
              if Js.truthy base64Data
              then Some ("data:" ++ Js.or_else (mimeType i) "image/png"
                           ++ ";base64," ++ base64Data)
              else first_image rest
          | None => first_image rest
          end
      | None => first_image rest
      end
  | [] => None
  end.

(** [generateRiddleImage]; the reply carries
    [response.candidates?.[0]?.content?.parts]. *)
Definition generateRiddleImage (prompt : string)
    (reply : Reply (option (list Part))) : Outcome string :=
  Js.try_catch
    (parts <- await reply ;;
     match match parts with Some ps => first_image ps | None => None end with
     | Some url => Return url
     | None => Throw (Js.error "No image data found in response.")
     end)
    (fun _ => Throw (Js.error "Failed to generate the riddle image.")).

End Gemini.

(** ** components/GameScreen.tsx

    The state that decides the round: [selected], [revealedHints],
    [showResult], [isCorrect].  The image dialog and the share button
    ([isImageOpen], [shareState]) touch none of it and are left out. *)

Module GameScreen.

Record Screen := mkScreen {
  selected : option Z;
  revealedHints : nat;
  showResult : bool;
  isCorrect : bool
}.

(** The four [useState] initial values. *)
Definition initial : Screen := mkScreen None 0 false false.

(** What a handler calls besides setting state, in order. *)
Inductive Call : Type :=
| playCorrect
| confetti
| playIncorrect
| playHint
| onGameComplete (isCorrect : bool).

(** [handleSelect] *)
Definition handleSelect (riddle : RiddleData.Riddle) (index : Z) (s : Screen)
    : Screen * list Call :=
  if showResult s then (s, [])
  else
    let correct := index =? RiddleData.answerIndex riddle in
    (mkScreen (Some index) (revealedHints s) true correct,
     (if correct then [playCorrect; confetti] else [playIncorrect])
       ++ [onGameComplete correct])%list.

(** [revealHint] *)
Definition revealHint (riddle : RiddleData.Riddle) (s : Screen)
    : Screen * list Call :=
  if (revealedHints s <? List.length (RiddleData.hints riddle))%nat
  then (mkScreen (selected s) (revealedHints s + 1) (showResult s) (isCorrect s),
        [playHint])
  else (s, []).

(** The [disabled] attribute of the hint button number [idx]. *)
Definition hint_disabled (idx : nat) (s : Screen) : bool :=
  (idx <? revealedHints s)%nat || showResult s.

(** A click on the hint button number [idx]: there is one button per hint,
    and a disabled button does not call its [onClick]. *)
Definition clickHint (riddle : RiddleData.Riddle) (idx : nat) (s : Screen)
    : Screen * list Call :=
  if (idx <? List.length (RiddleData.hints riddle))%nat
     && negb (hint_disabled idx s)
  then revealHint riddle s
  else (s, []).

(** A click on the choice button number [idx], [disabled={showResult}]. *)
Definition clickChoice (riddle : RiddleData.Riddle) (idx : nat) (s : Screen)
    : Screen * list Call :=
  if (idx <? List.length (RiddleData.choices riddle))%nat
     && negb (showResult s)
  then handleSelect riddle (Z.of_nat idx) s
  else (s, []).

(** The result panel: the round is over and was won, or lost. *)
Definition is_solved (s : Screen) : bool := showResult s && isCorrect s.
Definition is_failed (s : Screen) : bool := showResult s && negb (isCorrect s).

End GameScreen.

(** ** App.tsx *)

Module App.

Import Storage.

(** The [useState] cells of [App], and [gameScreen]: the state of the mounted
    [GameScreen] when the render has one. *)
Record Model := mkModel {
  gameState : GameState.State;
  customTopic : string;
  difficulty : Difficulty;
  isMuted : bool;
  history : list HistoryItem.Item;
  streak : Js.Number;
  gameScreen : option GameScreen.Screen
}.

(** What the handlers of [App] call on the services, most recent first;
    [uncaught e] is an error that left an event handler: it is reported,
    and the state updates the handler made before it are applied all the
    same. *)
Inductive Effect : Type :=
| startBGM
| saveToHistory_called (riddle : RiddleData.Riddle) (imageUrl : string)
| screen_call (c : GameScreen.Call)
| uncaught (e : Js.Error).

(** The application in its browser. *)
Record World := mkWorld {
  model : Model;
  localStorage : LocalStorage;
  effects : list Effect
}.

Definition initialGameState : GameState.State :=
  GameState.mkState idle None None None 0 None 0.

Definition initialModel : Model :=
  mkModel initialGameState "" medium false [] (Js.Int 0) None.

(** The condition under which the render contains [<GameScreen>]. *)
Definition shows_GameScreen (g : GameState.State) : bool :=
  match GameState.status g with
  | playing | solved | failed =>
      match GameState.riddle g with
      | Some _ => Js.truthy_opt (GameState.imageUrl g)
      | None => false
      end
  | _ => false
  end.

(** Re-render after a state change: [GameScreen] keeps its state while it
    stays in the tree, starts from its initial state when it enters, and
    loses it when it leaves. *)
Definition render (m : Model) : Model :=
  mkModel (gameState m) (customTopic m) (difficulty m) (isMuted m)
    (history m) (streak m)
    (if shows_GameScreen (gameState m)
     then match gameScreen m with
          | Some s => Some s
          | None => Some GameScreen.initial
          end
     else None).

Definition setGameState (f : GameState.State -> GameState.State) (m : Model)
    : Model :=
  mkModel (f (gameState m)) (customTopic m) (difficulty m) (isMuted m)
    (history m) (streak m) (gameScreen m).

Definition setCustomTopic (t : string) (m : Model) : Model :=
  mkModel (gameState m) t (difficulty m) (isMuted m)
    (history m) (streak m) (gameScreen m).

Definition setHistory (h : list HistoryItem.Item) (m : Model) : Model :=
  mkModel (gameState m) (customTopic m) (difficulty m) (isMuted m)
    h (streak m) (gameScreen m).

Definition setStreak (n : Js.Number) (m : Model) : Model :=
  mkModel (gameState m) (customTopic m) (difficulty m) (isMuted m)
    (history m) n (gameScreen m).

Definition setGameScreen (s : GameScreen.Screen) (m : Model) : Model :=
  mkModel (gameState m) (customTopic m) (difficulty m) (isMuted m)
    (history m) (streak m) (Some s).

(** The reducer of [dispatch]: the body of each [setGameState(prev => ..)];
    an action without a [case] changes nothing. *)
Definition reduce (action : GameAction) (prev : GameState.State)
    : GameState.State :=
  let '(GameState.mkState status riddle imageUrl selectedAnswer hintsRevealed
          err score) := prev in
  match action with
  | START_SEARCH =>
      GameState.mkState searching riddle imageUrl selectedAnswer hintsRevealed
        None score
  | START_GEN_RIDDLE =>
      GameState.mkState generating_riddle riddle imageUrl selectedAnswer
        hintsRevealed None score
  | RIDDLE_READY payload =>
      GameState.mkState generating_image (Some payload) imageUrl selectedAnswer
        hintsRevealed err score
  | IMAGE_READY payload =>
      GameState.mkState playing riddle (Some payload) selectedAnswer
        hintsRevealed err score
  | RESET =>
      GameState.mkState idle None None None 0 None score
  | ERROR payload =>
      GameState.mkState Types.error riddle imageUrl selectedAnswer hintsRevealed
        (Some payload) score
  | OPEN_HISTORY =>
      GameState.mkState Types.history riddle imageUrl selectedAnswer
        hintsRevealed err score
  | CLOSE_HISTORY =>
      GameState.mkState idle riddle imageUrl selectedAnswer hintsRevealed
        err score
  | START_GEN_IMAGE | ANSWER_SELECTED | REVEAL_HINT => prev
  end.

(** [dispatch] *)
Definition dispatch (action : GameAction) (m : Model) : Model :=
  let m := setGameState (reduce action) m in
  let m := match action with
           | RESET => setCustomTopic "" m
           | _ => m
           end in
  render m.

Definition dispatchW (action : GameAction) (w : World) : World :=
  mkWorld (dispatch action (model w)) (localStorage w) (effects w).

Definition log (e : Effect) (w : World) : World :=
  mkWorld (model w) (localStorage w) (e :: effects w).

(** [localStorage.setItem('newsquest_streak', text)], outside any [try]:
    the call throws when the browser has no room for the text. *)
Definition setItem_streak (env : Env) (text : string) (ls : LocalStorage)
    : Outcome LocalStorage :=
  if streak_room env text
  then Return (mkLocalStorage (newsquest_solved_history ls) (Some text))
  else Throw Js.QuotaExceededError.

(** [updateStreak] when the browser takes the write: the state is set and
    the text of the new streak is stored. *)
Definition updateStreak (increment : bool) (w : World) : World :=
  let newStreak := if increment then Js.succ (streak (model w)) else Js.Int 0 in
  mkWorld (setStreak newStreak (model w))
    (mkLocalStorage (newsquest_solved_history (localStorage w))
       (Some (Js.toString newStreak)))
    (effects w).

(** [updateStreak] in an environment: [setStreak(newStreak)] comes first,
    so that what the write throws leaves the function with the state set
    and [localStorage] as it was. *)
Definition updateStreak_in (env : Env) (increment : bool) (w : World)
    : World * option Js.Error :=
  let newStreak := if increment then Js.succ (streak (model w)) else Js.Int 0 in
  match setItem_streak env (Js.toString newStreak) (localStorage w) with
  | Return _ => (updateStreak increment w, None)
  | Throw e =>
      (mkWorld (setStreak newStreak (model w)) (localStorage w) (effects w),
       Some e)
  end.

(** [handleGameComplete]; [gameState] is the one of the render that the
    click was made on.  The function has no [try]: an error of
    [updateStreak] or of [saveToHistory] ends it where it is thrown, and is
    handed on with the state as it is then. *)
Definition handleGameComplete (env : Env) (isCorrect : bool) (w0 : World)
    : World * option Js.Error :=
  let g := gameState (model w0) in
  match updateStreak_in env isCorrect w0 with
  | (w, Some e) => (w, Some e)
  | (w, None) =>
      match GameState.riddle g, GameState.imageUrl g with
      | Some riddle, Some imageUrl =>
          if isCorrect && Js.truthy imageUrl
          then
            let w := log (saveToHistory_called riddle imageUrl) w in
            match saveToHistory env riddle imageUrl (localStorage w) with
            | Return (updatedHistory, ls) =>
                (mkWorld (setHistory updatedHistory (model w)) ls (effects w),
                 None)
            | Throw e => (w, Some e)
            end
          else (w, None)
      | _, _ => (w, None)
      end
  end.

(** The calls a [GameScreen] handler makes, carried out in order:
    [onGameComplete] is [handleGameComplete], the others go to the audio
    service and to the confetti.  An error ends the handler: the calls
    after it are not made. *)
Fixpoint perform (env : Env) (calls : list GameScreen.Call) (w : World)
    : World * option Js.Error :=
  match calls with
  | [] => (w, None)
  | GameScreen.onGameComplete b :: rest =>
      match handleGameComplete env b w with
      | (w', None) => perform env rest w'
      | (w', Some e) => (w', Some e)
      end
  | c :: rest => perform env rest (log (screen_call c) w)
  end.

(** An event on the mounted [GameScreen], whose props are [gameState.riddle]
    and [gameState.imageUrl]; without a [GameScreen] in the tree there is
    nothing to click.  An error that leaves the handler is reported, and
    the render that follows shows the state updates made before it. *)
Definition onScreen (env : Env)
    (handler : RiddleData.Riddle -> GameScreen.Screen ->
               GameScreen.Screen * list GameScreen.Call)
    (w : World) : Outcome World :=
  match gameScreen (model w), GameState.riddle (gameState (model w)) with
  | Some s, Some riddle =>
      let '(s', calls) := handler riddle s in
      let '(w', thrown) :=
        perform env calls
          (mkWorld (setGameScreen s' (model w)) (localStorage w) (effects w)) in
      let w' := match thrown with
                | Some e => log (uncaught e) w'
                | None => w'
                end in
      Return (mkWorld (render (model w')) (localStorage w') (effects w'))
  | _, _ => Return w
  end.

(** The intents of the playing phase. *)
Definition selectAnswer (env : Env) (index : Z) : World -> Outcome World :=
  onScreen env (fun riddle => GameScreen.handleSelect riddle index).

Definition clickChoice (env : Env) (idx : nat) : World -> Outcome World :=
  onScreen env (fun riddle => GameScreen.clickChoice riddle idx).

Definition revealHint (env : Env) : World -> Outcome World :=
  onScreen env GameScreen.revealHint.

Definition clickHint (env : Env) (idx : nat) : World -> Outcome World :=
  onScreen env (fun riddle => GameScreen.clickHint riddle idx).

(** [onReset], the logo of the header and the button of the error panel. *)
Definition reset : World -> World := dispatchW RESET.

(** [handleClearHistory] *)
Definition handleClearHistory (w : World) : World :=
  let '(empty, ls) := clearHistory (localStorage w) in
  mkWorld (setHistory empty (model w)) ls (effects w).

(** The streak part of the mount effect:
    [if (savedStreak) setStreak(parseInt(savedStreak, 10))]. *)
Definition loadStreak (ls : LocalStorage) (current : Js.Number) : Js.Number :=
  match newsquest_streak ls with
  | Some savedStreak =>
      if Js.truthy savedStreak then Js.parseInt savedStreak else current
  | None => current
  end.

(** The effect [useEffect(.., [isMuted])]. *)
Definition initEffect (w : World) : Outcome World :=
  h <- getHistory (localStorage w) ;;
  let m := setHistory h (model w) in
  let m := setStreak (loadStreak (localStorage w) (streak m)) m in
  Return (mkWorld m (localStorage w) (effects w)).

(** The first render and its effect. *)
Definition mount (ls : LocalStorage) : Outcome World :=
  initEffect (mkWorld initialModel ls []).

(** [toggleMute]; the effect depends on [isMuted] and runs again. *)
Definition toggleMute (w : World) : Outcome World :=
  let m := model w in
  initEffect
    (mkWorld
       (mkModel (gameState m) (customTopic m) (difficulty m) (negb (isMuted m))
          (history m) (streak m) (gameScreen m))
       (localStorage w) (effects w)).

(** *** The generation pipeline, [handleStartGame]

    The function is asynchronous: it runs up to an [await], and goes on when
    the awaited promise settles.  [Await] is what is suspended at an [await]
    (the variables the rest of the function reads), [handleStartGame] runs
    the function up to its first [await], and [resume] runs it from an
    [await], given the reply of the service, up to the next one.  Any other
    event can be handled between the two. *)
Inductive Await : Type :=
| AwaitTopic (difficulty : Difficulty)
| AwaitRiddle (topic : string) (difficulty : Difficulty)
| AwaitImage (riddleData : RiddleData.Riddle).

(** The reply that settles an [await]. *)
Inductive Settled : Type :=
| TopicSettled (reply : Gemini.Reply (option string))
| RiddleSettled (reply : Gemini.Reply (option Gemini.RiddleText))
| ImageSettled (reply : Gemini.Reply (option (list Gemini.Part))).

(** The [catch] block. *)
Definition catch_block (e : Js.Error) (w : World) : World :=
  dispatchW
    (ERROR (Js.or_else (Some (Js.message e)) "An unexpected error occurred.")) w.

Definition handleStartGame (useTrending : bool) (category : option string)
    (w : World) : World * option Await :=
  let w := log startBGM w in
  let topic := customTopic (model w) in
  if useTrending
  then (dispatchW START_SEARCH w, Some (AwaitTopic (difficulty (model w))))
  else if negb (Js.truthy (Js.trim topic))
  then (w, None)
  else (dispatchW START_GEN_RIDDLE w,
        Some (AwaitRiddle topic (difficulty (model w)))).

(** A reply of the wrong kind for the [await] cannot happen and resumes
    nothing. *)
Definition resume (k : Await) (r : Settled) (w : World) : World * option Await :=
  match k, r with
  | AwaitTopic difficulty, TopicSettled reply =>
      match Gemini.fetchTrendingNews reply with
      | Return topic =>
          (dispatchW START_GEN_RIDDLE w, Some (AwaitRiddle topic difficulty))
      | Throw e => (catch_block e w, None)
      end
  | AwaitRiddle topic difficulty, RiddleSettled reply =>
      match Gemini.generateRiddleFromTopic topic difficulty reply with
      | Return riddleData =>
          (dispatchW (RIDDLE_READY riddleData) w, Some (AwaitImage riddleData))
      | Throw e => (catch_block e w, None)
      end
  | AwaitImage riddleData, ImageSettled reply =>
      match Gemini.generateRiddleImage (RiddleData.image_prompt riddleData) reply with
      | Return imageUrl => (dispatchW (IMAGE_READY imageUrl) w, None)
      | Throw e => (catch_block e w, None)
      end
  | _, _ => (w, None)
  end.

End App.

(** ** Scenarios

    Runs of the operations above, and the vocabulary of the specification,
    for the statements that follow. *)

Module Scenario.

Import Storage App.

(** One call of [saveToHistory], with what it reads from its environment. *)
Record RecordCall := mkRecordCall {
  call_env : Env;
  call_riddle : RiddleData.Riddle;
  call_imageUrl : string
}.

(** Calls of [saveToHistory] one after the other on the same
    [localStorage]: the lists they return, first call first, and the
    [localStorage] they leave. *)
Fixpoint record_all (calls : list RecordCall) (ls : LocalStorage)
    : Outcome (list (list HistoryItem.Item) * LocalStorage) :=
  match calls with
  | [] => Return ([], ls)
  | c :: rest =>
      '(out, ls1) <- saveToHistory (call_env c) (call_riddle c) (call_imageUrl c) ls ;;
      '(outs, ls2) <- record_all rest ls1 ;;
      Return (out :: outs, ls2)
  end.

Definition questions (h : list HistoryItem.Item) : list string :=
  map HistoryItem.question h.

(** The invariant of the collection: at most [MAX_ITEMS] entries, no two
    with the same question. *)
Definition history_ok (h : list HistoryItem.Item) : Prop :=
  (List.length h <= MAX_ITEMS)%nat /\ NoDup (questions h).

(** The list [saveToHistory] tries to write first: the new entry in front,
    cut to [MAX_ITEMS]. *)
Definition candidate (env : Env) (riddle : RiddleData.Riddle)
    (imageUrl : string) (old : list HistoryItem.Item) : list HistoryItem.Item :=
  firstn MAX_ITEMS (newItem env riddle imageUrl :: old).

(** Room for at most [k] entries: the write fails until only [k] remain. *)
Definition room_for (k : nat) (h : list HistoryItem.Item) : bool :=
  (List.length h <=? k)%nat.

(** What the write loop leaves when it ends on the first [k] entries of
    [h]: they are written, or there is one entry, no room for it, and
    [localStorage] is as it was. *)
Definition Persisted (room : list HistoryItem.Item -> bool)
    (h : list HistoryItem.Item) (ls : LocalStorage)
    (k : nat) (ls' : LocalStorage) : Prop :=
  (room (firstn k h) = true
   /\ ls' = mkLocalStorage (Some (JSON_stringify (firstn k h)))
              (newsquest_streak ls))
  \/ (k = 1%nat /\ room (firstn 1 h) = false /\ ls' = ls).

(** A valid riddle record in the words of the specification: exactly four
    choices, and an answer index inside them. *)
Definition valid_RiddleRecord (d : RiddleData.Riddle) : Prop :=
  List.length (RiddleData.choices d) = 4%nat
  /\ 0 <= RiddleData.answerIndex d < Z.of_nat (List.length (RiddleData.choices d)).

(** [revealHint] called [n] times in a row. *)
Fixpoint revealHint_times (n : nat) (riddle : RiddleData.Riddle)
    (s : GameScreen.Screen) : GameScreen.Screen :=
  match n with
  | O => s
  | S n => revealHint_times n riddle (fst (GameScreen.revealHint riddle s))
  end.

(** The error that the settled call of the pipeline throws, when it fails. *)
Definition failure (k : Await) (r : Settled) : option Js.Error :=
  match k, r with
  | AwaitTopic _, TopicSettled reply =>
      match Gemini.fetchTrendingNews reply with
      | Throw e => Some e
      | Return _ => None
      end
  | AwaitRiddle topic difficulty, RiddleSettled reply =>
      match Gemini.generateRiddleFromTopic topic difficulty reply with
      | Throw e => Some e
      | Return _ => None
      end
  | AwaitImage riddleData, ImageSettled reply =>
      match Gemini.generateRiddleImage (RiddleData.image_prompt riddleData) reply with
      | Throw e => Some e
      | Return _ => None
      end
  | _, _ => None
  end.

(** The message each call of the pipeline fails with. *)
Definition failure_message (k : Await) : string :=
  match k with
  | AwaitTopic _ => "Could not fetch trending news. Please try a manual topic."
  | AwaitRiddle _ _ => "Failed to generate riddle logic."
  | AwaitImage _ => "Failed to generate the riddle image."
  end.

(** *** Sample data *)

Definition sample_riddle : RiddleData.Riddle :=
  RiddleData.mkRiddle "a cat on a keyboard" "Who types with paws?"
    ["dog"; "owl"; "cat"; "fox"] 2 ["It purrs"; "It has whiskers"]
    "Cats sleep most of the day." None None.

(** Three choices and an answer index outside them. *)
Definition odd_riddle : RiddleData.Riddle :=
  RiddleData.mkRiddle "a cat on a keyboard" "Who types with paws?"
    ["dog"; "owl"; "cat"] 7 ["It purrs"] "Cats sleep most of the day."
    None None.

Definition sample_env : Env := mkEnv 1700000000000 "k3x9" 1700000000001 (fun _ => true) (fun _ => true).

Definition sample_item (q : string) : HistoryItem.Item :=
  HistoryItem.mkItem "1a" 1 "topic" q (Some "answer") "fact" "data:," None.

(** The sample riddle, asking [q]. *)
Definition asking (q : string) : RiddleData.Riddle :=
  RiddleData.mkRiddle "a cat on a keyboard" q
    ["dog"; "owl"; "cat"; "fox"] 2 ["It purrs"; "It has whiskers"]
    "Cats sleep most of the day." (Some "cats") (Some "medium").

Definition sample_call (q : string) : RecordCall :=
  mkRecordCall sample_env (asking q) "data:,".

(** Room for two entries, and a store that holds three. *)
Definition tight_env : Env :=
  mkEnv 1700000000000 "k3x9" 1700000000001 (room_for 2) (fun _ => true).

Definition three_store : LocalStorage :=
  mkLocalStorage
    (Some (JsonArray [sample_item "q3"; sample_item "q2"; sample_item "q1"]))
    (Some "3").

Definition riddle_reply (d : RiddleData.Riddle)
    : Gemini.Reply (option Gemini.RiddleText) :=
  Gemini.Resolved (Some (Gemini.RiddleJson d)).

Definition image_reply : Gemini.Reply (option (list Gemini.Part)) :=
  Gemini.Resolved
    (Some [Gemini.mkPart None;
           Gemini.mkPart (Some (Gemini.mkInlineData (Some "QUJD") None))]).

(** The player has typed the topic "cats" on the menu. *)
Definition typed_world : World :=
  mkWorld (setCustomTopic "cats" initialModel) (mkLocalStorage None None) [].

(** [handleStartGame] on the typed topic, and the world at its first
    [await]. *)
Definition started_world : World := fst (handleStartGame false None typed_world).

(** The riddle has arrived; the image is awaited. *)
Definition riddle_world : World :=
  fst (resume (AwaitRiddle "cats" medium)
         (RiddleSettled (riddle_reply sample_riddle)) started_world).

(** The image has arrived: the round is being played. *)
Definition playing_world : World :=
  fst (resume (AwaitImage (Gemini.stamp "cats" medium sample_riddle))
         (ImageSettled image_reply) riddle_world).

(** No room for anything in [localStorage]. *)
Definition choked_env : Env :=
  mkEnv 1700000000000 "k3x9" 1700000000001 (fun _ => false) (fun _ => false).

(** Room for no entry at all. *)
Definition no_room_env : Env :=
  mkEnv 1700000000000 "k3x9" 1700000000001 (room_for 0) (fun _ => true).

(** The round of [playing_world] with a streak of 2^53, the way the mount
    effect reads it from the stored text. *)
Definition long_streak_world : World :=
  mkWorld (setStreak (Js.Int 9007199254740992) (model playing_world))
    (mkLocalStorage None (Some "9007199254740992"))
    (effects playing_world).

(** The round of [playing_world] after the right answer has been selected. *)
Definition answered_world : World :=
  match selectAnswer sample_env 2 playing_world with
  | Return w => w
  | Throw _ => playing_world
  end.

End Scenario.

(** ** The browser around the components

    What [navigator], [window] and [fetch] answer is an argument; what the
    handlers ask of them is recorded in order. *)

Module Browser.

(** [encodeURIComponent].  A string stands for the bytes of its characters
    in UTF-8, which is what the function escapes: every byte but the
    letters, the digits and [- _ . ! ~ * ' ( )] becomes [%XX].  A string of
    JavaScript can also hold half of a surrogate pair on its own, which has
    no UTF-8: it stands as the three bytes of its code point (the first is
    237, the second from 160 to 191), and on such a string the function
    throws. *)
Definition unreserved (c : ascii) : bool :=
  let n := nat_of_ascii c in
  ((65 <=? n) && (n <=? 90) || (97 <=? n) && (n <=? 122)
   || (48 <=? n) && (n <=? 57)
   || (n =? 45) || (n =? 95) || (n =? 46) || (n =? 33) || (n =? 126)
   || (n =? 42) || (n =? 39) || (n =? 40) || (n =? 41))%nat.

Definition hex (n : nat) : ascii :=
  ascii_of_nat (if n <? 10 then 48 + n else 55 + n)%nat.

Definition escape (c : ascii) : string :=
  let n := nat_of_ascii c in
  String "%" (String (hex (n / 16)) (String (hex (n mod 16)) "")).

Fixpoint percent_encode (s : string) : string :=
  match s with
  | String c r =>
      (if unreserved c then String c "" else escape c) ++ percent_encode r
  | EmptyString => ""
  end.

(** Half of a surrogate pair on its own, somewhere in the string. *)
Fixpoint lone_surrogate (s : string) : bool :=
  match s with
  | String c r =>
      match r with
      | String d _ =>
          ((nat_of_ascii c =? 237) && (160 <=? nat_of_ascii d)
           && (nat_of_ascii d <=? 191))%nat
          || lone_surrogate r
      | EmptyString => false
      end
  | EmptyString => false
  end.

Definition encodeURIComponent (s : string) : Outcome string :=
  if lone_surrogate s then Throw Js.URIError else Return (percent_encode s).

(** A value in a template literal: [undefined] prints as "undefined". *)
Definition interpolate (v : option string) : string :=
  match v with
  | Some s => s
  | None => "undefined"
  end.

(** The line feed of the template literals. *)
Definition LF : string := String (ascii_of_nat 10) "".

(** [navigator] and [fetch], as far as the share handlers use them:
    [share] is absent where the Web Share API is not supported, and
    otherwise tells how the promise of [navigator.share(data)] settles for
    data with or without files; [canShare] is absent or answers for the
    file; [fetch_blob] is how [fetch(url)] followed by [blob()] settles;
    [clipboard] is absent (an insecure page) or tells how the promise of
    [writeText] settles. *)
Record Navigator := mkNavigator {
  share : option (bool -> Outcome unit);
  canShare : option bool;
  fetch_blob : Outcome unit;
  clipboard : option (Outcome unit)
}.

(** What a handler asks of the browser. *)
Inductive Did : Type :=
| navigator_share (title text : string) (url : option string) (files : bool)
| clipboard_writeText (text : string)
| window_open (url : string)
| alert (message : string)
| download (href name : string).

End Browser.

(** ** components/HistoryScreen.tsx *)

Module HistoryScreen.

Import Browser.

(** The [contextMenu] state: closed, or open at a place for an item. *)
Record ContextMenu := mkContextMenu {
  x : Z;
  y : Z;
  item : HistoryItem.Item
}.

(** The listener of [click] and [scroll] on the window. *)
Definition handleClick (menu : option ContextMenu) : option ContextMenu := None.

(** [handleContextMenu]; the event gives [clientX] and [clientY], the window
    [innerWidth] and [innerHeight], all in whole pixels. *)
Definition handleContextMenu (clientX clientY innerWidth innerHeight : Z)
    (item : HistoryItem.Item) : option ContextMenu :=
  let menuWidth := 200 in
  let menuHeight := 160 in
  let x := clientX in
  let y := clientY in
  let x := if x + menuWidth >? innerWidth then innerWidth - menuWidth - 20 else x in
  let y := if y + menuHeight >? innerHeight then clientY - menuHeight else y in
  Some (mkContextMenu x y item).

(** The "More options" button of a card; [left] and [bottom] are those of
    its bounding rectangle. *)
Definition clickMore (left bottom : Z) (item : HistoryItem.Item)
    : option ContextMenu :=
  Some (mkContextMenu (left - 150) (bottom + 5) item).

Inductive Action : Type := share_action | search_action | copy_action.

Definition share_text (item : HistoryItem.Item) : string :=
  HistoryItem.question item ++ LF ++ LF ++ "Answer: "
    ++ interpolate (HistoryItem.answer item).

Definition search_url (item : HistoryItem.Item) : Outcome string :=
  query <- encodeURIComponent (HistoryItem.topic item ++ " news story") ;;
  Return ("https://www.google.com/search?q=" ++ query).

Definition copy_text (item : HistoryItem.Item) : string :=
  "Topic: " ++ HistoryItem.topic item ++ LF
    ++ "Q: " ++ HistoryItem.question item ++ LF
    ++ "A: " ++ interpolate (HistoryItem.answer item) ++ LF
    ++ "Fact: " ++ HistoryItem.fun_fact item.

(** [performAction('copy')]: [navigator.clipboard.writeText(text)], not
    awaited, then [setContextMenu(null)]; without [navigator.clipboard] the
    call throws before the menu is closed. *)
Definition performCopy (nav : Navigator) (m : ContextMenu)
    : Outcome (option ContextMenu * list Did) :=
  match clipboard nav with
  | Some _ => Return (None, [clipboard_writeText (copy_text (item m))])
  | None => Throw (Js.mkError "TypeError" "Cannot read properties of undefined")
  end.

(** The inner [try] of the share branch: the file is added when the image
    can be fetched and [navigator.canShare] accepts it. *)
Definition with_files (nav : Navigator) : bool :=
  match fetch_blob nav with
  | Return _ =>
      match canShare nav with
      | Some answer => answer
      | None => false
      end
  | Throw _ => false
  end.

(** [performAction]; a [Throw] is the rejection of the promise the function
    returns, with the menu left as it was.  In the share branch the nested
    [performAction('copy')] is not awaited: what it throws is lost, what it
    did before remains.  In the search branch the address is built before
    [window.open] is called and before the menu is closed. *)
Definition performAction (nav : Navigator) (action : Action)
    (contextMenu : option ContextMenu)
    : Outcome (option ContextMenu * list Did) :=
  match contextMenu with
  | None => Return (None, [])
  | Some m =>
      match action with
      | share_action =>
          match share nav with
          | Some settles =>
              (* whether the promise resolves or rejects, the [catch] and
                 the last line are the same *)
              Return (None,
                      [navigator_share "NewsQuest Riddle" (share_text (item m))
                         None (with_files nav)])
          | None =>
              let copied :=
                match performCopy nav m with
                | Return (_, did) => did
                | Throw _ => []
                end in
              Return (None,
                      (copied ++
                       [alert "Sharing not supported on this device. Details copied to clipboard!"])%list)
          end
      | search_action =>
          url <- search_url (item m) ;;
          Return (None, [window_open url])
      | copy_action => performCopy nav m
      end
  end.

End HistoryScreen.

(** ** components/GameScreen.tsx, the share button *)

Module Share.

Import Browser.

(** [shareState] *)
Inductive ShareState : Type := idle | sharing | success | copied.

Definition is_sharing (s : ShareState) : bool :=
  match s with
  | sharing => true
  | _ => false
  end.

(** The detective of the share text, U+1F575 U+FE0F, in UTF-8. *)
Definition detective : string :=
  string_of_list_ascii
    (map ascii_of_nat [240; 159; 149; 181; 239; 184; 143])%nat.

Definition shareText (riddle : RiddleData.Riddle) : string :=
  detective ++ " NewsQuest Challenge!" ++ LF ++ LF
    ++ "Topic: " ++ interpolate (RiddleData.news_topic riddle) ++ LF ++ LF
    ++ "Riddle: " ++ RiddleData.riddle_question riddle ++ LF ++ LF
    ++ "Can you solve it? #NewsQuest #DailyRiddle".

Definition shareTitle : string := "NewsQuest Daily Riddle".

(** What the page supplies besides [navigator]: [window.location.href] and
    the reading of [Date.now()] for the name of the download. *)
Record Page := mkPage {
  href : string;
  now : Z
}.

(** The [try] block: the state it sets, or the error it throws, and what it
    asked of the browser. *)
Definition try_share (nav : Navigator) (page : Page)
    (riddle : RiddleData.Riddle) (imageUrl : string)
    : Outcome ShareState * list Did :=
  match share nav with
  | Some settles =>
      match fetch_blob nav with
      | Throw e => (Throw e, [])
      | Return _ =>
          match canShare nav with
          | Some true =>
              (_ <- settles true ;; Return success,
               [navigator_share shareTitle (shareText riddle) None true])
          | _ =>
              (_ <- settles false ;; Return success,
               [navigator_share shareTitle (shareText riddle)
                  (Some (href page)) false])
          end
      end
  | None => (Throw (Js.error "Web Share API not supported"), [])
  end.

(** The [catch] block. *)
Definition fallback (nav : Navigator) (page : Page)
    (riddle : RiddleData.Riddle) (imageUrl : string) (e : Js.Error)
    : ShareState * list Did :=
  if negb (Js.name e =? "AbortError")%string
  then
    match clipboard nav with
    | Some (Return _) =>
        (copied,
         [clipboard_writeText (shareText riddle);
          download imageUrl
            ("newsquest-" ++ Js.toString (Js.Int (now page)) ++ ".png")])
    | Some (Throw _) => (idle, [clipboard_writeText (shareText riddle)])
    | None => (idle, [])
    end
  else (idle, []).

(** One run of [handleShare]: the state when the function is done, what it
    asked of the browser, and whether it has set the timer that puts the
    state back to [idle] after 3000 ms. *)
Record Run := mkRun {
  settled : ShareState;
  did : list Did;
  timer : bool
}.

Definition handleShare (nav : Navigator) (page : Page)
    (riddle : RiddleData.Riddle) (imageUrl : string) (shareState : ShareState)
    : Run :=
  if is_sharing shareState then mkRun shareState [] false
  else
    match try_share nav page riddle imageUrl with
    | (Return s, did) => mkRun s did true
    | (Throw e, did) =>
        let '(s, did') := fallback nav page riddle imageUrl e in
        mkRun s (did ++ did')%list true
    end.

(** The state once the timer has fired. *)
Definition after_timer (r : Run) : ShareState :=
  if timer r then idle else settled r.

End Share.

(** ** App.tsx, the menu and the collection view *)

Module Menu.

Import Storage App.

(** [disabled={!customTopic.trim()}] of the "Generate Riddle" button. *)
Definition generate_disabled (m : Model) : bool :=
  negb (Js.truthy (Js.trim (customTopic m))).

Definition menu_shown (w : World) : bool :=
  match GameState.status (gameState (model w)) with
  | idle => true
  | _ => false
  end.

(** [onChange] of the topic input. *)
Definition typeTopic (t : string) (w : World) : World :=
  if menu_shown w
  then mkWorld (setCustomTopic t (model w)) (localStorage w) (effects w)
  else w.

(** The "Generate Riddle" button. *)
Definition clickGenerate (w : World) : World * option Await :=
  if menu_shown w && negb (generate_disabled (model w))
  then handleStartGame false None w
  else (w, None).

(** [onKeyDown] of the topic input, for the key Enter. *)
Definition pressEnter (w : World) : World * option Await :=
  if menu_shown w then handleStartGame false None w else (w, None).

(** One of the four category buttons. *)
Definition clickCategory (category : string) (w : World) : World * option Await :=
  if menu_shown w then handleStartGame true (Some category) w else (w, None).

(** The two buttons that open the collection are in the tree only when the
    history is not empty and the phase is [idle]. *)
Definition collection_shown (w : World) : bool :=
  menu_shown w && (0 <? List.length (history (model w)))%nat.

Definition clickCollection (w : World) : World :=
  if collection_shown w then dispatchW OPEN_HISTORY w else w.

Definition history_shown (w : World) : bool :=
  match GameState.status (gameState (model w)) with
  | Types.history => true
  | _ => false
  end.

(** [onBack] of the collection view. *)
Definition clickBack (w : World) : World :=
  if history_shown w then dispatchW CLOSE_HISTORY w else w.

(** The "Clear" button of the collection view: disabled on an empty
    history, and [onClear] is called only when [window.confirm] answers
    yes. *)
Definition clickClear (confirm : bool) (w : World) : World :=
  if history_shown w && (0 <? List.length (history (model w)))%nat && confirm
  then handleClearHistory w
  else w.

End Menu.

(** ** Runs and vocabulary for the further properties *)

Module Runs.

Import Storage App Browser.

(** The replies of the service handed, in order, to the pipeline that
    waits for them. *)
Fixpoint settle (k : option Await) (replies : list Settled) (w : World)
    : World * option Await :=
  match k, replies with
  | Some k, r :: rest =>
      let '(w', k') := resume k r w in
      settle k' rest w'
  | _, _ => (w, k)
  end.

(** [handleStartGame] and the replies that follow. *)
Definition play_through (useTrending : bool) (category : option string)
    (replies : list Settled) (w : World) : World * option Await :=
  let '(w1, k) := handleStartGame useTrending category w in
  settle k replies w1.

(** A text of ASCII white space only (space, tab, line feed, vertical tab,
    form feed, carriage return). *)
Definition blank (s : string) : bool :=
  forallb Js.is_space (list_ascii_of_string s).

(** A text with at least one visible ASCII character (from [!] to [~]):
    such a text is not white space only, in any reading of white space. *)
Definition has_visible (s : string) : bool :=
  existsb (fun c => (33 <=? nat_of_ascii c) && (nat_of_ascii c <=? 126))%nat
    (list_ascii_of_string s).

(** A part with inline data that is not empty. *)
Definition carries_image (p : Gemini.Part) : bool :=
  match Gemini.inlineData p with
  | Some i => Js.truthy_opt (Gemini.data i)
  | None => false
  end.

(** The data URI of a part that carries an image. *)
Definition data_uri (p : Gemini.Part) : string :=
  match Gemini.inlineData p with
  | Some i =>
      "data:" ++ Js.or_else (Gemini.mimeType i) "image/png" ++ ";base64,"
        ++ match Gemini.data i with Some d => d | None => "" end
  | None => ""
  end.

(** A number that a double holds exactly and that [toString] writes in
    plain decimal digits. *)
Definition safe (x : Js.Number) : Prop :=
  match x with
  | Js.Int n => - 2 ^ 53 < n < 2 ^ 53
  | Js.NaN => True
  end.

(** The value of a hexadecimal digit. *)
Definition unhex (c : ascii) : option nat :=
  let n := nat_of_ascii c in
  if ((48 <=? n) && (n <=? 57))%nat then Some (n - 48)%nat
  else if ((65 <=? n) && (n <=? 70))%nat then Some (n - 55)%nat
  else None.

(** Reading back what [encodeURIComponent] writes. *)
Fixpoint unescape (s : string) : option string :=
  match s with
  | EmptyString => Some ""
  | String c r =>
      if (c =? "%")%char
      then
        match r with
        | String h (String l r') =>
            match unhex h, unhex l, unescape r' with
            | Some a, Some b, Some s' =>
                Some (String (ascii_of_nat (16 * a + b)) s')
            | _, _, _ => None
            end
        | _ => None
        end
      else
        match unescape r with
        | Some s' => Some (String c s')
        | None => None
        end
  end.

(** The characters [encodeURIComponent] writes: the unreserved ones, the
    escape sign and, after it, hexadecimal digits (which are unreserved). *)
Definition query_safe (c : ascii) : bool := unreserved c || (c =? "%")%char.

(** The time stamps of a list, first entry first. *)
Definition timestamps (h : list HistoryItem.Item) : list Z :=
  map HistoryItem.timestamp h.

(** Newest first. *)
Definition newest_first (h : list HistoryItem.Item) : Prop :=
  StronglySorted Z.ge (timestamps h).

(** The clock readings of a sequence of calls never go back. *)
Definition clock_never_goes_back (calls : list Scenario.RecordCall) : Prop :=
  StronglySorted Z.le
    (map (fun c => now_timestamp (Scenario.call_env c)) calls).

(** *** Sample data *)

Definition image_part : Gemini.Part :=
  Gemini.mkPart (Some (Gemini.mkInlineData (Some "QUJD") (Some "image/jpeg"))).

Definition no_share_navigator : Navigator :=
  mkNavigator None None (Return tt) (Some (Return tt)).

Definition cancelling_navigator : Navigator :=
  mkNavigator (Some (fun _ => Throw (Js.mkError "AbortError" "Share canceled")))
    (Some true) (Return tt) (Some (Return tt)).

(** A lone high surrogate, U+D800, as a topic. *)
Definition broken_topic : string :=
  String (ascii_of_nat 237) (String (ascii_of_nat 160) (String (ascii_of_nat 128) "")).


Definition sample_page : Share.Page := Share.mkPage "https://newsquest.example/" 1700000000002.

(** A round on the riddle whose answer index is outside its choices. *)
Definition odd_world : World :=
  fst (play_through false None
         [RiddleSettled (Scenario.riddle_reply Scenario.odd_riddle);
          ImageSettled Scenario.image_reply] Scenario.typed_world).

Definition call_at (t : Z) (q : string) : Scenario.RecordCall :=
  Scenario.mkRecordCall (mkEnv t "k3x9" t (fun _ => true) (fun _ => true))
    (Scenario.asking q) "data:,".

End Runs.

(** * Properties *)

(** ** The history store *)

Module StorageFacts.

Import Storage Scenario.

Lemma getHistory_returns (ls : LocalStorage) :
  exists h, getHistory ls = Return h.
Proof.
  unfold getHistory.
  destruct (newsquest_solved_history ls) as [[h|raw]|]; simpl.
  - now exists h.
  - destruct (Js.truthy raw); simpl; now exists [].
  - now exists [].
Qed.

Lemma getHistory_written (h : list HistoryItem.Item) (s : option string) :
  getHistory (mkLocalStorage (Some (JSON_stringify h)) s) = Return h.
Proof. reflexivity. Qed.

Lemma setItem_room room h ls :
  room h = true ->
  setItem room h ls
  = Return (mkLocalStorage (Some (JSON_stringify h)) (newsquest_streak ls)).
Proof. unfold setItem. now intros ->. Qed.

Lemma setItem_full room h ls :
  room h = false -> setItem room h ls = Throw Js.QuotaExceededError.
Proof. unfold setItem. now intros ->. Qed.

Lemma persist_cons room x rest ls :
  persist room (x :: rest) ls =
  match setItem room (x :: rest) ls with
  | Return ls' => Return (x :: rest, ls')
  | Throw _ =>
      match rest with
      | [] => Return ([x], ls)
      | y :: rest' => persist room (pop (x :: y :: rest')) ls
      end
  end.
Proof.
  rewrite persist_equation_2.
  destruct (setItem room (x :: rest) ls) as [ls'|e]; simpl.
  - reflexivity.
  - destruct rest; reflexivity.
Qed.

Lemma persist_spec room (n : nat) :
  forall h ls, List.length h = S n ->
  exists k ls',
    persist room h ls = Return (firstn k h, ls')
    /\ (1 <= k <= List.length h)%nat
    /\ (forall j, (k < j <= List.length h)%nat -> room (firstn j h) = false)
    /\ Persisted room h ls k ls'.
Proof.
  induction n as [|n IH]; intros h ls Hlen.
  - destruct h as [|x [|y r]]; try discriminate.
    rewrite persist_cons. unfold setItem.
    destruct (room [x]) eqn:Hroom.
    + exists 1%nat. eexists.
      split; [reflexivity|]. split; [simpl; lia|]. split.
      * intros j Hj. simpl in Hj. lia.
      * left. now split.
    + exists 1%nat, ls.
      split; [reflexivity|]. split; [simpl; lia|]. split.
      * intros j Hj. simpl in Hj. lia.
      * right. now repeat split.
  - destruct h as [|x [|y r]]; try discriminate.
    rewrite persist_cons. unfold setItem.
    destruct (room (x :: y :: r)) eqn:Hroom.
    + exists (List.length (x :: y :: r)). eexists.
      split; [rewrite firstn_all; reflexivity|]. split; [simpl; lia|]. split.
      * intros j Hj. lia.
      * left. now rewrite firstn_all.
    + assert (Hpop : pop (x :: y :: r) = firstn (S n) (x :: y :: r)).
      { unfold pop. rewrite removelast_firstn_len. f_equal.
        rewrite Hlen. reflexivity. }
      assert (Hpl : List.length (pop (x :: y :: r)) = S n).
      { rewrite Hpop, length_firstn. rewrite Hlen. lia. }
      destruct (IH _ ls Hpl) as (k & ls' & Hrun & Hk & Hfail & Hp).
      rewrite Hpl in Hk, Hfail.
      assert (Hpre : forall j, (j <= S n)%nat ->
                firstn j (pop (x :: y :: r)) = firstn j (x :: y :: r)).
      { intros j Hj. rewrite Hpop, firstn_firstn. f_equal. lia. }
      exists k, ls'. rewrite Hrun, Hpre by lia.
      split; [reflexivity|]. split; [lia|]. split.
      * intros j Hj. destruct (Nat.eq_dec j (S (S n))) as [->|Hne].
        -- rewrite <- Hlen, firstn_all. exact Hroom.
        -- rewrite <- Hpre by lia. apply Hfail. lia.
      * unfold Persisted in *. rewrite !Hpre in Hp by lia. exact Hp.
Qed.


Lemma existsb_question (q : string) (old : list HistoryItem.Item) :
  existsb (fun h => (HistoryItem.question h =? q)%string) old = true
  <-> In q (questions old).
Proof.
  rewrite existsb_exists. unfold questions. rewrite in_map_iff.
  split; intros (h & H1 & H2).
  - apply String.eqb_eq in H2. now exists h.
  - exists h. split; [exact H2|]. now apply String.eqb_eq.
Qed.

Lemma candidate_cut env riddle imageUrl old :
  (let history := newItem env riddle imageUrl :: old in
   if (MAX_ITEMS <? List.length history)%nat then firstn MAX_ITEMS history
   else history)
  = candidate env riddle imageUrl old.
Proof.
  unfold candidate. cbv zeta.
  destruct (Nat.ltb_spec MAX_ITEMS (List.length (newItem env riddle imageUrl :: old)))
    as [H|H]; [reflexivity|].
  now rewrite firstn_all2.
Qed.

Lemma candidate_length env riddle imageUrl old :
  (1 <= List.length (candidate env riddle imageUrl old) <= MAX_ITEMS)%nat.
Proof.
  unfold candidate. rewrite length_firstn. unfold MAX_ITEMS. simpl List.length. lia.
Qed.

Lemma firstn_candidate env riddle imageUrl old (k : nat) :
  (k <= List.length (candidate env riddle imageUrl old))%nat ->
  firstn k (candidate env riddle imageUrl old)
  = firstn k (newItem env riddle imageUrl :: old).
Proof.
  intros Hk. pose proof (candidate_length env riddle imageUrl old) as Hc.
  unfold candidate. rewrite firstn_firstn. f_equal. lia.
Qed.

(** One call, whatever the room: the list already has the question and
    nothing happens, or the write loop runs on the candidate list. *)
Lemma saveToHistory_spec env riddle imageUrl ls old :
  getHistory ls = Return old ->
  exists out ls',
    saveToHistory env riddle imageUrl ls = Return (out, ls')
    /\ (In (RiddleData.riddle_question riddle) (questions old) ->
        out = old /\ ls' = ls)
    /\ (~ In (RiddleData.riddle_question riddle) (questions old) ->
        let cand := candidate env riddle imageUrl old in
        exists k,
          out = firstn k cand
          /\ (1 <= k <= List.length cand)%nat
          /\ (forall j, (k < j <= List.length cand)%nat ->
              room env (firstn j cand) = false)
          /\ Persisted (room env) cand ls k ls').
Proof.
  intros Hget. unfold saveToHistory. rewrite Hget. cbn [Js.bind].
  change (HistoryItem.question (newItem env riddle imageUrl))
    with (RiddleData.riddle_question riddle).
  destruct (existsb _ old) eqn:Hex.
  - exists old, ls. split; [reflexivity|]. split; [tauto|].
    intros Hnot. apply existsb_question in Hex. contradiction.
  - rewrite candidate_cut.
    pose proof (candidate_length env riddle imageUrl old) as Hc.
    destruct (List.length (candidate env riddle imageUrl old)) as [|n] eqn:Hlen;
      [lia|].
    destruct (persist_spec (room env) n _ ls Hlen)
      as (k & ls' & Hrun & Hk & Hfail & Hp).
    exists (firstn k (candidate env riddle imageUrl old)), ls'.
    split; [exact Hrun|]. split.
    + intros Hin. apply existsb_question in Hin. congruence.
    + intros _. cbv zeta. exists k. rewrite <- Hlen. now repeat split.
Qed.

Lemma NoDup_firstn {A} (k : nat) (l : list A) : NoDup l -> NoDup (firstn k l).
Proof.
  revert k. induction l as [|a l IH]; intros k Hnd.
  - now rewrite firstn_nil.
  - destruct k as [|k]; [constructor|]. simpl.
    inversion Hnd as [|? ? Hnotin Hnd']; subst. constructor.
    + intros Hin. apply Hnotin. revert Hin. clear.
      revert k. induction l as [|b l IHl]; intros [|k]; simpl; try tauto.
      intros [H|H]; [now left|right; eauto].
    + now apply IH.
Qed.

Lemma history_ok_candidate env riddle imageUrl old (k : nat) :
  history_ok old ->
  ~ In (RiddleData.riddle_question riddle) (questions old) ->
  history_ok (firstn k (candidate env riddle imageUrl old)).
Proof.
  intros [_ Hnd] Hnot. split.
  - pose proof (candidate_length env riddle imageUrl old).
    rewrite length_firstn. lia.
  - unfold questions, candidate. rewrite <- !firstn_map.
    apply NoDup_firstn, NoDup_firstn. simpl. now constructor.
Qed.

(** One call keeps the invariant, on the list it returns and on the list
    it leaves in [localStorage]. *)
Lemma saveToHistory_ok env riddle imageUrl ls old :
  getHistory ls = Return old -> history_ok old ->
  exists out ls' old',
    saveToHistory env riddle imageUrl ls = Return (out, ls')
    /\ history_ok out
    /\ getHistory ls' = Return old' /\ history_ok old'.
Proof.
  intros Hget Hok.
  destruct (saveToHistory_spec env riddle imageUrl ls old Hget)
    as (out & ls' & Hrun & Hknown & Hfresh).
  destruct (in_dec string_dec (RiddleData.riddle_question riddle) (questions old))
    as [Hin|Hnot].
  - destruct (Hknown Hin) as [-> ->]. exists old, ls, old.
    split; [exact Hrun|]. split; [exact Hok|]. split; assumption.
  - destruct (Hfresh Hnot) as (k & -> & Hk & _ & Hp). cbv zeta in *.
    pose proof (history_ok_candidate env riddle imageUrl old k Hok Hnot) as Hout.
    destruct Hp as [[Hw ->]|(-> & Hg & ->)].
    + eexists _, _, _. split; [exact Hrun|]. split; [exact Hout|].
      split; [apply getHistory_written|exact Hout].
    + eexists _, _, old. split; [exact Hrun|]. split; [exact Hout|].
      split; assumption.
Qed.

Lemma record_all_ok (calls : list RecordCall) :
  forall ls old,
  getHistory ls = Return old -> history_ok old ->
  exists outs ls' old',
    record_all calls ls = Return (outs, ls')
    /\ Forall history_ok outs
    /\ getHistory ls' = Return old' /\ history_ok old'.
Proof.
  induction calls as [|c calls IH]; intros ls old Hget Hok.
  - exists [], ls, old. split; [reflexivity|]. split; [constructor|].
    split; assumption.
  - destruct (saveToHistory_ok (call_env c) (call_riddle c) (call_imageUrl c) ls old Hget Hok)
      as (out & ls1 & old1 & Hrun & Hout & Hget1 & Hok1).
    destruct (IH ls1 old1 Hget1 Hok1) as (outs & ls2 & old2 & Hruns & Houts & Hget2 & Hok2).
    exists (out :: outs), ls2, old2.
    split.
    + simpl. rewrite Hrun. cbn [Js.bind]. rewrite Hruns. reflexivity.
    + split; [now constructor|]. split; assumption.
Qed.

(** C2. From an empty store, after any sequence of [saveToHistory] calls,
    every list a call returned and the list [getHistory] then reads have at
    most 12 entries and no two entries with the same question.  A further
    call returns a list that has its question, hence once.  If the question
    is already in the list, the call returns the list unchanged and writes
    nothing; a call with a new question returns the new entry in front
    of the old ones, cut from the end, and when the first write succeeds it
    is exactly the first 12 of them, which is also what [getHistory] then
    reads. *)
Theorem C2_history_bounded_deduplicated_newest_first
    (streak_text : option string) (calls : list RecordCall)
    (env : Env) (riddle : RiddleData.Riddle) (imageUrl : string) :
  exists outs ls old out ls',
    record_all calls (mkLocalStorage None streak_text) = Return (outs, ls)
    /\ Forall history_ok outs
    /\ getHistory ls = Return old /\ history_ok old
    /\ saveToHistory env riddle imageUrl ls = Return (out, ls')
    /\ history_ok out
    /\ In (RiddleData.riddle_question riddle) (questions out)
    /\ (In (RiddleData.riddle_question riddle) (questions old) ->
        out = old /\ ls' = ls)
    /\ (~ In (RiddleData.riddle_question riddle) (questions old) ->
        (exists k, (1 <= k <= MAX_ITEMS)%nat
                   /\ out = firstn k (newItem env riddle imageUrl :: old))
        /\ (room env (firstn MAX_ITEMS (newItem env riddle imageUrl :: old)) = true ->
            out = firstn MAX_ITEMS (newItem env riddle imageUrl :: old)
            /\ getHistory ls' = Return out)).
Proof.
  assert (Hempty : history_ok []).
  { split; [unfold MAX_ITEMS; simpl; lia|constructor]. }
  destruct (record_all_ok calls (mkLocalStorage None streak_text) [] eq_refl Hempty)
    as (outs & ls & old & Hruns & Houts & Hget & Hok).
  destruct (saveToHistory_spec env riddle imageUrl ls old Hget)
    as (out & ls' & Hrun & Hknown & Hfresh).
  exists outs, ls, old, out, ls'.
  repeat (split; [assumption|]).
  split; [|split].
  - destruct (saveToHistory_ok env riddle imageUrl ls old Hget Hok)
      as (out2 & ls2 & old2 & Hrun2 & Hout2 & _).
    congruence.
  - destruct (in_dec string_dec (RiddleData.riddle_question riddle) (questions old))
      as [Hin|Hnot].
    + destruct (Hknown Hin) as [-> _]. exact Hin.
    + destruct (Hfresh Hnot) as (k & -> & Hk & _). cbv zeta in *.
      rewrite firstn_candidate by lia.
      destruct k as [|k]; [lia|]. now left.
  - split; [exact Hknown|]. intros Hnot.
    destruct (Hfresh Hnot) as (k & -> & Hk & Hfail & Hp). cbv zeta in *.
    pose proof (candidate_length env riddle imageUrl old) as Hc.
    split.
    + exists k. split; [lia|]. apply firstn_candidate. lia.
    + fold (candidate env riddle imageUrl old). intros Hroom.
      destruct (Nat.eq_dec k (List.length (candidate env riddle imageUrl old)))
        as [->|Hne].
      * rewrite firstn_all. split; [reflexivity|].
        destruct Hp as [[Hw ->]|(Hone & Hg & ->)].
        -- rewrite firstn_all. apply getHistory_written.
        -- rewrite <- Hone, firstn_all in Hg. congruence.
      * specialize (Hfail (List.length (candidate env riddle imageUrl old))).
        rewrite firstn_all in Hfail. rewrite Hfail in Hroom by lia. discriminate.
Qed.


Lemma record_all_room_for (k : nat) (calls : list RecordCall) :
  (1 <= k)%nat ->
  Forall (fun c => forall h, room (call_env c) h = room_for k h) calls ->
  forall ls old,
  getHistory ls = Return old -> (List.length old <= k)%nat ->
  exists outs ls',
    record_all calls ls = Return (outs, ls')
    /\ Forall (fun out => (List.length out <= k)%nat) outs.
Proof.
  intros Hk Hcalls. induction Hcalls as [|c calls Hc _ IH]; intros ls old Hget Hold.
  - exists [], ls. split; [reflexivity|constructor].
  - destruct (saveToHistory_spec (call_env c) (call_riddle c) (call_imageUrl c) ls old Hget)
      as (out & ls1 & Hrun & Hknown & Hfresh).
    assert (Hstep : (List.length out <= k)%nat
                    /\ exists old1, getHistory ls1 = Return old1
                                    /\ (List.length old1 <= k)%nat).
    { destruct (in_dec string_dec (RiddleData.riddle_question (call_riddle c))
                  (questions old)) as [Hin|Hnot].
      - destruct (Hknown Hin) as [-> ->]. split; [exact Hold|]. now exists old.
      - destruct (Hfresh Hnot) as (k0 & -> & Hk0 & _ & Hp). cbv zeta in *.
        rewrite length_firstn.
        destruct Hp as [[Hw ->]|(-> & _ & ->)].
        + rewrite Hc in Hw. unfold room_for in Hw. apply Nat.leb_le in Hw.
          rewrite length_firstn in Hw.
          split; [exact Hw|]. eexists. split; [apply getHistory_written|].
          now rewrite length_firstn.
        + split; [lia|]. now exists old. }
    destruct Hstep as (Hout & old1 & Hget1 & Hold1).
    destruct (IH ls1 old1 Hget1 Hold1) as (outs & ls2 & Hruns & Houts).
    exists (out :: outs), ls2. split.
    + simpl. rewrite Hrun. cbn [Js.bind]. rewrite Hruns. reflexivity.
    + now constructor.
Qed.

(** C3, as the code has it.  On a store whose history text is absent, unparsable or
    the text of an array of entries, [saveToHistory] never throws.  When
    the question is new, the list it returns is the candidate list less the
    [evicted] oldest entries, one for each write that failed; at least one
    entry is left; either the list returned is written, or it is down to
    one entry that still does not fit and [localStorage] is left as it was.
    With room for at most [k] entries, [k] at least 1, the list returned
    has at most [k] entries; with no room for any list it is the new entry
    alone, unwritten.  When every call of a sequence that starts on an
    empty store finds room for at most [k >= 1] entries, every list
    returned has at most [k] entries. *)
Theorem C3_quota_eviction_never_throws :
  (forall env riddle imageUrl ls,
     exists old out ls',
       getHistory ls = Return old
       /\ saveToHistory env riddle imageUrl ls = Return (out, ls')
       /\ (~ In (RiddleData.riddle_question riddle) (questions old) ->
           let cand := candidate env riddle imageUrl old in
           exists evicted : nat,
             (evicted < List.length cand)%nat
             /\ out = firstn (List.length cand - evicted) cand
             /\ (forall i, (i < evicted)%nat ->
                 room env (firstn (List.length cand - i) cand) = false)
             /\ ((room env out = true /\ getHistory ls' = Return out)
                 \/ (List.length out = 1%nat /\ room env out = false /\ ls' = ls))
             /\ (forall k, (1 <= k)%nat ->
                 (forall h, room env h = room_for k h) ->
                 (List.length out <= k)%nat)
             /\ ((forall h, room env h = false) ->
                 out = [newItem env riddle imageUrl] /\ ls' = ls)))
  /\ (forall k calls streak_text,
        (1 <= k)%nat ->
        Forall (fun c => forall h, room (call_env c) h = room_for k h) calls ->
        exists outs ls',
          record_all calls (mkLocalStorage None streak_text) = Return (outs, ls')
          /\ Forall (fun out => (List.length out <= k)%nat) outs).
Proof.
  split.
  - intros env riddle imageUrl ls.
    destruct (getHistory_returns ls) as [old Hget].
    destruct (saveToHistory_spec env riddle imageUrl ls old Hget)
      as (out & ls' & Hrun & _ & Hfresh).
    exists old, out, ls'. split; [exact Hget|]. split; [exact Hrun|].
    intros Hnot. destruct (Hfresh Hnot) as (k0 & -> & Hk0 & Hfail & Hp).
    cbv zeta in *.
    set (cand := candidate env riddle imageUrl old) in *.
    exists (List.length cand - k0)%nat.
    replace (List.length cand - (List.length cand - k0))%nat with k0 by lia.
    split; [lia|]. split; [reflexivity|]. split.
    + intros i Hi. apply Hfail. lia.
    + assert (Hlen : List.length (firstn k0 cand) = k0)
        by (rewrite length_firstn; lia).
      split.
      * destruct Hp as [[Hw ->]|(-> & Hg & ->)].
        -- left. split; [exact Hw|apply getHistory_written].
        -- right. now repeat split.
      * split.
        -- intros k Hk Hroom. rewrite Hlen.
           destruct Hp as [[Hw _]|(-> & _)]; [|exact Hk].
           rewrite Hroom in Hw. unfold room_for in Hw. apply Nat.leb_le in Hw.
           now rewrite Hlen in Hw.
        -- intros Hnone.
           destruct Hp as [[Hw _]|(-> & _ & ->)];
             [rewrite Hnone in Hw; discriminate|].
           split; [|reflexivity]. subst cand. unfold candidate. reflexivity.
  - intros k calls streak_text Hk Hcalls.
    apply (record_all_room_for k calls Hk Hcalls (mkLocalStorage None streak_text) []);
      [reflexivity|simpl; lia].
Qed.

(** C10. The entry's [answer] is [choices[answerIndex]] with no check: inside
    the array it is the text of that choice; outside, it is [undefined], and
    [saveToHistory] still returns, with that entry in front when the
    question is new.  A [news_topic] that is missing or empty is replaced by
    "Mystery Topic"; any other is kept. *)
Theorem C10_answer_lookup_unchecked
    (env : Env) (riddle : RiddleData.Riddle) (imageUrl : string) :
  let item := newItem env riddle imageUrl in
  let i := RiddleData.answerIndex riddle in
  let choices := RiddleData.choices riddle in
  (0 <= i < Z.of_nat (List.length choices) ->
   exists choice,
     nth_error choices (Z.to_nat i) = Some choice
     /\ HistoryItem.answer item = Some choice)
  /\ (~ (0 <= i < Z.of_nat (List.length choices)) ->
      HistoryItem.answer item = None
      /\ forall ls, exists old out ls',
           getHistory ls = Return old
           /\ saveToHistory env riddle imageUrl ls = Return (out, ls')
           /\ (~ In (RiddleData.riddle_question riddle) (questions old) ->
               exists rest, out = item :: rest))
  /\ (RiddleData.news_topic riddle = None
      \/ RiddleData.news_topic riddle = Some "" ->
      HistoryItem.topic item = "Mystery Topic")
  /\ (forall t, RiddleData.news_topic riddle = Some t -> t <> "" ->
      HistoryItem.topic item = t).
Proof.
  cbv zeta. split; [|split; [|split]].
  - intros [Hlo Hhi]. unfold newItem, index. simpl.
    destruct (Z.ltb_spec (RiddleData.answerIndex riddle) 0) as [H|_]; [lia|].
    destruct (nth_error (RiddleData.choices riddle)
                (Z.to_nat (RiddleData.answerIndex riddle))) as [c|] eqn:Hnth.
    + now exists c.
    + apply nth_error_None in Hnth. lia.
  - intros Hout. split.
    + unfold newItem, index. simpl.
      destruct (Z.ltb_spec (RiddleData.answerIndex riddle) 0) as [H|H];
        [reflexivity|].
      apply nth_error_None. lia.
    + intros ls. destruct (getHistory_returns ls) as [old Hget].
      destruct (saveToHistory_spec env riddle imageUrl ls old Hget)
        as (out & ls' & Hrun & _ & Hfresh).
      exists old, out, ls'. split; [exact Hget|]. split; [exact Hrun|].
      intros Hnot. destruct (Hfresh Hnot) as (k & -> & Hk & _). cbv zeta in *.
      rewrite firstn_candidate by lia.
      destruct k as [|k]; [lia|]. simpl. eauto.
  - intros [H|H]; unfold newItem; simpl; now rewrite H.
  - intros t H Ht. unfold newItem; simpl. rewrite H. simpl.
    unfold Js.truthy. destruct (String.eqb_spec t ""); [contradiction|reflexivity].
Qed.


Lemma C2_witness :
  exists outs ls out ls',
    record_all [sample_call "q1"; sample_call "q1"] (mkLocalStorage None None)
    = Return (outs, ls)
    /\ saveToHistory sample_env (asking "q2") "data:," ls = Return (out, ls')
    /\ out = [newItem sample_env (asking "q2") "data:,";
              newItem sample_env (asking "q1") "data:,"]
    /\ getHistory ls' = Return out.
Proof.
  destruct (C2_history_bounded_deduplicated_newest_first None
              [sample_call "q1"; sample_call "q1"] sample_env (asking "q2") "data:,")
    as (outs & ls & old & out & ls' & Hruns & _ & Hget & _ & Hrun & _ & _ & _ & Hfresh).
  vm_compute in Hruns. injection Hruns as <- <-.
  vm_compute in Hget. injection Hget as <-.
  assert (Hnew : ~ In (RiddleData.riddle_question (asking "q2"))
                   (questions [newItem sample_env (asking "q1") "data:,"])).
  { simpl. intros [H|[]]. discriminate H. }
  destruct (Hfresh Hnew) as [_ Hfirst].
  destruct (Hfirst eq_refl) as [Hout Hlist].
  eexists _, _, out, ls'. split; [reflexivity|].
  split; [exact Hrun|]. split; [exact Hout|exact Hlist].
Defined.

Lemma C3_witness :
  exists out ls',
    saveToHistory tight_env (asking "q4") "data:," three_store = Return (out, ls')
    /\ (List.length out <= 2)%nat.
Proof.
  destruct C3_quota_eviction_never_throws as [Hcall _].
  destruct (Hcall tight_env (asking "q4") "data:," three_store)
    as (old & out & ls' & Hget & Hrun & Hfresh).
  vm_compute in Hget. injection Hget as <-.
  assert (Hnew : ~ In (RiddleData.riddle_question (asking "q4"))
                   (questions [sample_item "q3"; sample_item "q2"; sample_item "q1"])).
  { simpl. intros [H|[H|[H|[]]]]; discriminate H. }
  destruct (Hfresh Hnew) as (evicted & _ & _ & _ & _ & Hle & _).
  exists out, ls'. split; [exact Hrun|].
  apply (Hle 2%nat); [lia|reflexivity].
Defined.

(** C3, the claim as stated, fails: with persistence failing until no
    entry remains ([k = 0]), the list returned still has one entry, which
    is not written. *)
Lemma C3_one_entry_is_returned_when_none_fits :
  (forall h, room no_room_env h = room_for 0 h)
  /\ exists out,
       saveToHistory no_room_env (asking "q1") "data:," (mkLocalStorage None None)
       = Return (out, mkLocalStorage None None)
       /\ out = [newItem no_room_env (asking "q1") "data:,"]
       /\ ~ (List.length out <= 0)%nat.
Proof.
  split; [reflexivity|].
  eexists. split; [|split; [reflexivity|simpl; lia]].
  unfold saveToHistory. simpl. rewrite persist_cons. reflexivity.
Qed.

Lemma C10_witness :
  (exists choice,
     nth_error (RiddleData.choices sample_riddle) 2 = Some choice
     /\ HistoryItem.answer (newItem sample_env sample_riddle "data:,") = Some choice)
  /\ HistoryItem.answer (newItem sample_env odd_riddle "data:,") = None
  /\ HistoryItem.topic (newItem sample_env odd_riddle "data:,") = "Mystery Topic".
Proof.
  destruct (C10_answer_lookup_unchecked sample_env sample_riddle "data:,")
    as (Hinside & _).
  destruct (C10_answer_lookup_unchecked sample_env odd_riddle "data:,")
    as (_ & Houtside & Hmissing & _).
  split; [|split].
  - apply Hinside. simpl. lia.
  - apply Houtside. simpl. lia.
  - apply Hmissing. left. reflexivity.
Defined.

End StorageFacts.

(** ** The generation client *)

Module GeminiFacts.

Import Gemini Scenario.

(** C6, as the code has it.  [generateRiddleFromTopic] returns exactly when
    the reply carries the text of a JSON object, and then returns that object
    with [news_topic] and [difficulty] set to the requested ones and the six
    other fields as received, whatever the number of choices and the answer
    index; in every other case (rejected call, no text, empty text, text of
    [null] or of a primitive, text that does not parse) it throws the error
    "Failed to generate riddle logic.". *)
Theorem C6_riddle_returned_without_validation
    (topic : string) (difficulty : Difficulty)
    (reply : Reply (option RiddleText)) :
  (forall data, reply = Resolved (Some (RiddleJson data)) ->
     generateRiddleFromTopic topic difficulty reply
     = Return (stamp topic difficulty data)
     /\ RiddleData.news_topic (stamp topic difficulty data) = Some topic
     /\ RiddleData.difficulty (stamp topic difficulty data)
        = Some (Difficulty_text difficulty)
     /\ RiddleData.choices (stamp topic difficulty data) = RiddleData.choices data
     /\ RiddleData.answerIndex (stamp topic difficulty data)
        = RiddleData.answerIndex data
     /\ RiddleData.image_prompt (stamp topic difficulty data)
        = RiddleData.image_prompt data
     /\ RiddleData.riddle_question (stamp topic difficulty data)
        = RiddleData.riddle_question data
     /\ RiddleData.hints (stamp topic difficulty data) = RiddleData.hints data
     /\ RiddleData.fun_fact (stamp topic difficulty data) = RiddleData.fun_fact data)
  /\ ((forall data, reply <> Resolved (Some (RiddleJson data))) ->
      generateRiddleFromTopic topic difficulty reply
      = Throw (Js.error "Failed to generate riddle logic.")).
Proof.
  split.
  - intros data ->. repeat split.
  - intros Hnot. unfold generateRiddleFromTopic.
    destruct reply as [e|[[d|raw|raw]|]]; simpl; try reflexivity.
    + now destruct (Hnot d).
    + now destruct (Js.truthy raw).
    + now destruct (Js.truthy raw).
Qed.

(** C6, the claim as stated, fails: a payload with three choices and the
    answer index 7 is not a valid riddle record, and it is returned. *)
Lemma C6_invalid_record_is_returned :
  ~ valid_RiddleRecord odd_riddle
  /\ generateRiddleFromTopic "cats" medium (riddle_reply odd_riddle)
     = Return (stamp "cats" medium odd_riddle)
  /\ ~ valid_RiddleRecord (stamp "cats" medium odd_riddle).
Proof.
  split; [|split].
  - intros [H _]. discriminate H.
  - reflexivity.
  - intros [H _]. discriminate H.
Qed.

Lemma C6_witness :
  generateRiddleFromTopic "cats" hard (riddle_reply odd_riddle)
  = Return (stamp "cats" hard odd_riddle)
  /\ generateRiddleFromTopic "cats" hard (Resolved None)
     = Throw (Js.error "Failed to generate riddle logic.").
Proof.
  split.
  - apply (C6_riddle_returned_without_validation "cats" hard
             (riddle_reply odd_riddle)).
    reflexivity.
  - apply (C6_riddle_returned_without_validation "cats" hard (Resolved None)).
    intros data H. discriminate H.
Defined.

End GeminiFacts.

(** ** The session *)

Module AppFacts.

Import Storage App Scenario.

(** C4. Whatever the state, [reset] gives a state in phase [idle] with no
    riddle, no image, no selected answer, no revealed hint and no error
    message; the [GameScreen], with its selected choice and its count of
    revealed hints, is gone from the tree; the streak, the history list and
    [localStorage] are as before. *)
Theorem C4_reset_clears_the_round_only (w : World) :
  let w' := reset w in
  let g := gameState (model w') in
  GameState.status g = idle
  /\ GameState.riddle g = None
  /\ GameState.imageUrl g = None
  /\ GameState.selectedAnswer g = None
  /\ GameState.hintsRevealed g = 0
  /\ GameState.error g = None
  /\ gameScreen (model w') = None
  /\ streak (model w') = streak (model w)
  /\ history (model w') = history (model w)
  /\ localStorage w' = localStorage w.
Proof.
  destruct w as [[[st r u sel hr err sc] topic d muted h n scr] ls fx].
  cbv zeta. unfold reset, dispatchW, dispatch. simpl. repeat split.
Qed.

(** C5, as the code has it.  When a call of the pipeline fails, the pipeline
    ends and the session is in phase [error] with the message of the failed
    call stored; the rest of the session state is what it was when the
    failure arrived: the riddle, the image, the selection, the hint count
    and the score are kept, and so are the streak, the history list and
    [localStorage]. *)
Theorem C5_failure_reaches_error_and_keeps_the_rest
    (k : Await) (r : Settled) (w : World) (e : Js.Error) :
  failure k r = Some e ->
  let w' := fst (resume k r w) in
  let g := gameState (model w) in
  let g' := gameState (model w') in
  snd (resume k r w) = None
  /\ Js.message e = failure_message k
  /\ GameState.status g' = Types.error
  /\ GameState.error g' = Some (failure_message k)
  /\ GameState.riddle g' = GameState.riddle g
  /\ GameState.imageUrl g' = GameState.imageUrl g
  /\ GameState.selectedAnswer g' = GameState.selectedAnswer g
  /\ GameState.hintsRevealed g' = GameState.hintsRevealed g
  /\ GameState.score g' = GameState.score g
  /\ streak (model w') = streak (model w)
  /\ history (model w') = history (model w)
  /\ localStorage w' = localStorage w.
Proof.
  intros Hfail.
  assert (He : e = Js.error (failure_message k)
               /\ resume k r w = (catch_block e w, None)).
  { destruct k as [d|topic d|R]; destruct r as [reply|reply|reply];
      try discriminate Hfail; simpl in Hfail |- *.
    - unfold Gemini.fetchTrendingNews in *.
      destruct reply as [e0|[t|]]; simpl in *;
        try destruct (Js.truthy t); simpl in *;
        try discriminate; injection Hfail as <-; now split.
    - unfold Gemini.generateRiddleFromTopic in *.
      destruct reply as [e0|[[data|raw|raw]|]]; simpl in *;
        try destruct (Js.truthy raw); simpl in *;
        try discriminate; injection Hfail as <-; now split.
    - unfold Gemini.generateRiddleImage in *.
      destruct reply as [e0|[ps|]]; simpl in *;
        try destruct (Gemini.first_image ps); simpl in *;
        try discriminate; injection Hfail as <-; now split. }
  destruct He as [-> ->].
  destruct w as [[[st rd u sel hr err sc] topic d muted h n scr] ls fx].
  cbv zeta. unfold catch_block, dispatchW, dispatch.
  destruct k; simpl; repeat split.
Qed.


(** C5, the claim as stated, fails: the riddle has been stored, the image
    call is rejected, and the session in phase [error] still holds the
    riddle of the aborted pipeline. *)
Lemma C5_riddle_of_aborted_pipeline_is_kept :
  let stored := Gemini.stamp "cats" medium sample_riddle in
  let w' := fst (resume (AwaitImage stored)
                   (ImageSettled (Gemini.Rejected (Js.error "503")))
                   riddle_world) in
  GameState.status (gameState (model riddle_world)) = generating_image
  /\ GameState.status (gameState (model w')) = Types.error
  /\ GameState.error (gameState (model w'))
     = Some "Failed to generate the riddle image."
  /\ GameState.riddle (gameState (model w')) = Some stored
  /\ GameState.riddle (gameState (model w')) <> None.
Proof.
  cbv zeta. repeat split. discriminate.
Qed.

Lemma C5_witness :
  failure (AwaitImage (Gemini.stamp "cats" medium sample_riddle))
    (ImageSettled (Gemini.Resolved None))
  = Some (Js.error "Failed to generate the riddle image.")
  /\ GameState.riddle
       (gameState
          (model
             (fst (resume (AwaitImage (Gemini.stamp "cats" medium sample_riddle))
                     (ImageSettled (Gemini.Resolved None)) riddle_world))))
     = GameState.riddle (gameState (model riddle_world)).
Proof.
  split; [reflexivity|].
  apply (C5_failure_reaches_error_and_keeps_the_rest
           (AwaitImage (Gemini.stamp "cats" medium sample_riddle))
           (ImageSettled (Gemini.Resolved None)) riddle_world
           (Js.error "Failed to generate the riddle image.")).
  reflexivity.
Defined.

(** C7, as the code has it.  No token is kept and none is checked: after a
    [reset] the session is in phase [idle], and when the call that was
    outstanding then succeeds, its result is applied all the same.  The
    riddle that arrives late is stored and the session goes to
    [generating_image]; the image that arrives late is stored and the
    session goes to [playing]. *)
Theorem C7_late_result_is_applied_after_reset (w : World) :
  GameState.status (gameState (model (reset w))) = idle
  /\ (forall topic d reply data,
        Gemini.generateRiddleFromTopic topic d reply = Return data ->
        let w' := fst (resume (AwaitRiddle topic d) (RiddleSettled reply) (reset w)) in
        GameState.status (gameState (model w')) = generating_image
        /\ GameState.riddle (gameState (model w')) = Some data)
  /\ (forall riddleData reply url,
        Gemini.generateRiddleImage (RiddleData.image_prompt riddleData) reply
        = Return url ->
        let w' := fst (resume (AwaitImage riddleData) (ImageSettled reply) (reset w)) in
        GameState.status (gameState (model w')) = playing
        /\ GameState.imageUrl (gameState (model w')) = Some url).
Proof.
  destruct w as [[[st rd u sel hr err sc] topic0 d0 muted h n scr] ls fx].
  split; [reflexivity|]. split.
  - intros topic d reply data Hgen. cbv zeta. simpl. rewrite Hgen. now split.
  - intros riddleData reply url Hgen. cbv zeta. simpl. rewrite Hgen. now split.
Qed.

(** C7, the claim as stated, fails: the player starts a game on the topic
    "cats", clicks the logo while the riddle is being generated, and the
    riddle that then arrives takes the session out of [idle] and is
    stored. *)
Lemma C7_stale_riddle_leaves_idle :
  snd (handleStartGame false None typed_world) = Some (AwaitRiddle "cats" medium)
  /\ GameState.status (gameState (model (reset started_world))) = idle
  /\ let w' := fst (resume (AwaitRiddle "cats" medium)
                      (RiddleSettled (riddle_reply sample_riddle))
                      (reset started_world)) in
     GameState.status (gameState (model w')) = generating_image
     /\ GameState.status (gameState (model w')) <> idle
     /\ GameState.riddle (gameState (model w'))
        = Some (Gemini.stamp "cats" medium sample_riddle).
Proof.
  cbv zeta. repeat split. discriminate.
Qed.

Lemma C7_witness :
  GameState.status
    (gameState
       (model
          (fst (resume (AwaitRiddle "cats" medium)
                  (RiddleSettled (riddle_reply sample_riddle))
                  (reset started_world)))))
  = generating_image.
Proof.
  destruct (C7_late_result_is_applied_after_reset started_world) as (_ & H & _).
  apply (H "cats" medium (riddle_reply sample_riddle)
           (Gemini.stamp "cats" medium sample_riddle)).
  reflexivity.
Defined.

(** C8. A history text that does not parse is read as the empty list, and
    nothing is thrown.  A streak text in which [parseInt] finds no number
    is not read as zero: the streak becomes [NaN]; so it is on mount with
    the text "abc" under the streak key. *)
Theorem C8_unparsable_streak_is_NaN :
  (forall raw streak_text,
     getHistory (mkLocalStorage (Some (Garbled raw)) streak_text) = Return [])
  /\ (forall history_text savedStreak current,
        Js.truthy savedStreak = true ->
        Js.parseInt savedStreak = Js.NaN ->
        loadStreak (mkLocalStorage history_text (Some savedStreak)) current
        = Js.NaN)
  /\ (exists w, mount (mkLocalStorage None (Some "abc")) = Return w
                /\ streak (model w) = Js.NaN
                /\ streak (model w) <> Js.Int 0).
Proof.
  split; [|split].
  - intros raw streak_text. unfold getHistory. simpl.
    now destruct (Js.truthy raw).
  - intros history_text savedStreak current Ht Hp. unfold loadStreak. simpl.
    now rewrite Ht.
  - eexists. split; [reflexivity|]. split; [reflexivity|discriminate].
Qed.

Lemma C8_witness :
  loadStreak (mkLocalStorage None (Some "abc")) (Js.Int 0) = Js.NaN.
Proof.
  destruct C8_unparsable_streak_is_NaN as (_ & H & _).
  apply (H None "abc" (Js.Int 0)); reflexivity.
Defined.


Lemma revealHint_times_count (riddle : RiddleData.Riddle) (m : nat) :
  forall s,
  (GameScreen.revealedHints s <= List.length (RiddleData.hints riddle))%nat ->
  GameScreen.revealedHints (revealHint_times m riddle s)
  = Nat.min (List.length (RiddleData.hints riddle))
      (GameScreen.revealedHints s + m).
Proof.
  induction m as [|m IH]; intros s Hs; simpl.
  - lia.
  - unfold GameScreen.revealHint at 1.
    destruct (Nat.ltb_spec (GameScreen.revealedHints s)
                (List.length (RiddleData.hints riddle))) as [Hlt|Hge]; simpl.
    + rewrite IH; simpl; lia.
    + rewrite IH; lia.
Qed.

(** A world whose [GameScreen] is in the tree is its own render. *)
Lemma render_shown (w : World) (s : GameScreen.Screen) :
  shows_GameScreen (gameState (model w)) = true ->
  gameScreen (model w) = Some s ->
  mkWorld (render (setGameScreen s (model w))) (localStorage w) (effects w) = w.
Proof.
  destruct w as [[g topic d muted h n scr] ls fx]. simpl.
  intros Hshow ->. unfold render, setGameScreen. simpl. now rewrite Hshow.
Qed.

(** C9. One [revealHint] adds at most one to the count of revealed hints and
    never takes it above the number of hints; called [len(hints) + 3] times
    from the start of a round it leaves the count at [len(hints)], and no
    number of calls takes it higher.  Once an answer is selected every hint
    button is disabled: a click on any of them changes nothing, in the
    component and in the application. *)
Theorem C9_hints_capped_and_disabled_after_answer
    (riddle : RiddleData.Riddle) (s : GameScreen.Screen) :
  let n := List.length (RiddleData.hints riddle) in
  let s' := fst (GameScreen.revealHint riddle s) in
  (GameScreen.revealedHints s <= GameScreen.revealedHints s'
   <= GameScreen.revealedHints s + 1)%nat
  /\ ((GameScreen.revealedHints s <= n)%nat ->
      (GameScreen.revealedHints s' <= n)%nat)
  /\ GameScreen.revealedHints (revealHint_times (n + 3) riddle GameScreen.initial)
     = n
  /\ (forall m,
        (GameScreen.revealedHints (revealHint_times m riddle GameScreen.initial)
         <= n)%nat)
  /\ (GameScreen.showResult s = true ->
      (forall idx, GameScreen.clickHint riddle idx s = (s, []))
      /\ (forall env w idx,
            shows_GameScreen (gameState (model w)) = true ->
            GameState.riddle (gameState (model w)) = Some riddle ->
            gameScreen (model w) = Some s ->
            clickHint env idx w = Return w)).
Proof.
  cbv zeta.
  assert (Hstep : (GameScreen.revealedHints s
                   <= GameScreen.revealedHints (fst (GameScreen.revealHint riddle s))
                   <= GameScreen.revealedHints s + 1)%nat
                  /\ ((GameScreen.revealedHints s
                       <= List.length (RiddleData.hints riddle))%nat ->
                      (GameScreen.revealedHints (fst (GameScreen.revealHint riddle s))
                       <= List.length (RiddleData.hints riddle))%nat)).
  { unfold GameScreen.revealHint.
    destruct (Nat.ltb_spec (GameScreen.revealedHints s)
                (List.length (RiddleData.hints riddle))); simpl; lia. }
  destruct Hstep as [H1 H2].
  split; [exact H1|]. split; [exact H2|]. split; [|split].
  - rewrite revealHint_times_count; simpl; lia.
  - intros m. rewrite revealHint_times_count; simpl; lia.
  - intros Hshown.
    assert (Hclick : forall idx, GameScreen.clickHint riddle idx s = (s, [])).
    { intros idx. unfold GameScreen.clickHint, GameScreen.hint_disabled.
      rewrite Hshown, orb_true_r. simpl. now rewrite andb_false_r. }
    split; [exact Hclick|].
    intros env w idx Hshow Hr Hs. unfold clickHint, onScreen.
    rewrite Hs, Hr, Hclick. simpl. now rewrite render_shown.
Qed.

Lemma C9_witness :
  (GameScreen.revealedHints
     (fst (GameScreen.revealHint sample_riddle
             (GameScreen.mkScreen None 2 false false))) <= 2)%nat
  /\ GameScreen.clickHint sample_riddle 1
       (GameScreen.mkScreen (Some 2) 1 true true)
     = (GameScreen.mkScreen (Some 2) 1 true true, [])
  /\ clickHint sample_env 0 answered_world = Return answered_world.
Proof.
  split; [|split].
  - apply (C9_hints_capped_and_disabled_after_answer sample_riddle
             (GameScreen.mkScreen None 2 false false)).
    simpl. lia.
  - apply (C9_hints_capped_and_disabled_after_answer sample_riddle
             (GameScreen.mkScreen (Some 2) 1 true true)).
    reflexivity.
  - destruct (C9_hints_capped_and_disabled_after_answer
                (Gemini.stamp "cats" medium sample_riddle)
                (GameScreen.mkScreen (Some 2) 0 true true))
      as (_ & _ & _ & _ & Hanswered).
    destruct (Hanswered eq_refl) as [_ Happ].
    apply Happ; reflexivity.
Defined.


Lemma saveToHistory_returns env riddle imageUrl ls :
  exists out ls', saveToHistory env riddle imageUrl ls = Return (out, ls').
Proof.
  destruct (StorageFacts.getHistory_returns ls) as [old Hget].
  destruct (StorageFacts.saveToHistory_spec env riddle imageUrl ls old Hget)
    as (out & ls' & Hrun & _).
  now exists out, ls'.
Qed.

(** After [reset] there is no [GameScreen]; the one that the next riddle and
    image bring starts from its initial state. *)
Lemma new_round_after_reset (w : World) :
  gameScreen (model (reset w)) = None
  /\ (forall R' url',
      Js.truthy url' = true ->
      gameScreen
        (model (dispatchW (IMAGE_READY url')
                  (dispatchW (RIDDLE_READY R') (reset w))))
      = Some GameScreen.initial).
Proof.
  destruct w as [[[st r u sel hr err sc] topic d muted h n scr] ls fx].
  split; [reflexivity|].
  intros R' url' Htruthy. unfold reset, dispatchW, dispatch, render.
  cbn -[Js.truthy]. now rewrite Htruthy.
Qed.

(** Up to 2^53 in size an integer is a double. *)
Lemma nearest_double_exact (m : Z) :
  - 2 ^ 53 <= m <= 2 ^ 53 -> Js.nearest_double m = m.
Proof.
  intros Hm.
  destruct (Z.eq_dec (Z.abs m) (2 ^ 53)) as [Htop|Hbelow].
  - assert (Hcases : m = 2 ^ 53 \/ m = - 2 ^ 53) by lia.
    destruct Hcases as [-> | ->]; vm_compute; reflexivity.
  - assert (Ha : 0 <= Z.abs m < 2 ^ 53) by lia.
    assert (Hlog : Z.log2 (Z.abs m) - 52 <= 0).
    { destruct (Z.eq_dec (Z.abs m) 0) as [->|Hpos]; [simpl; lia|].
      assert (Z.log2 (Z.abs m) < 53) by (apply Z.log2_lt_pow2; lia). lia. }
    unfold Js.nearest_double.
    rewrite (Z.max_l 0 (Z.log2 (Z.abs m) - 52)) by exact Hlog.
    change (2 ^ 0) with 1.
    rewrite Z.div_1_r, Z.mod_1_r. change (2 * 0 <? 1) with true. cbv iota.
    rewrite Z.mul_1_r. destruct m; reflexivity.
Qed.

(** C1, as the code has it.  In a playing session with riddle [R] and image [url],
    on which no answer has been selected, [selectAnswer i] sets the selected
    choice to [i].  If [i] is the answer index, the round is solved and the
    streak is [streak + 1]: one more than it was when it was an integer
    from -2^53 to 2^53 - 1; and, when [localStorage] takes the text of the
    new streak, [saveToHistory] is called, once, with [R] and [url]: its
    result is the new history list and the new [localStorage].  If [i] is
    not the answer index, the round is failed, the streak is 0,
    [saveToHistory] is not called and the history is what it was.  Any
    selection after this one changes nothing, until [reset] takes the
    [GameScreen] away: the next round starts with no selection. *)
Theorem C1_first_selection_decides_the_round
    (env : Env) (w : World) (R : RiddleData.Riddle) (url : string)
    (s : GameScreen.Screen) (i : Z) :
  GameState.status (gameState (model w)) = playing ->
  GameState.riddle (gameState (model w)) = Some R ->
  GameState.imageUrl (gameState (model w)) = Some url ->
  Js.truthy url = true ->
  gameScreen (model w) = Some s ->
  GameScreen.showResult s = false ->
  exists w1 s1,
    selectAnswer env i w = Return w1
    /\ gameScreen (model w1) = Some s1
    /\ GameScreen.selected s1 = Some i
    /\ gameState (model w1) = gameState (model w)
    /\ (i = RiddleData.answerIndex R ->
        GameScreen.is_solved s1 = true
        /\ streak (model w1) = Js.succ (streak (model w))
        /\ (forall n, streak (model w) = Js.Int n ->
            - 2 ^ 53 <= n < 2 ^ 53 ->
            streak (model w1) = Js.Int (n + 1))
        /\ (streak_room env (Js.toString (Js.succ (streak (model w)))) = true ->
            effects w1
            = saveToHistory_called R url
                :: screen_call GameScreen.confetti
                :: screen_call GameScreen.playCorrect :: effects w
            /\ saveToHistory env R url (localStorage (updateStreak true w))
               = Return (history (model w1), localStorage w1)))
    /\ (i <> RiddleData.answerIndex R ->
        GameScreen.is_failed s1 = true
        /\ streak (model w1) = Js.Int 0
        /\ (forall r u, In (saveToHistory_called r u) (effects w1) ->
            In (saveToHistory_called r u) (effects w))
        /\ (streak_room env (Js.toString (Js.Int 0)) = true ->
            effects w1 = screen_call GameScreen.playIncorrect :: effects w
            /\ newsquest_streak (localStorage w1) = Some (Js.toString (Js.Int 0)))
        /\ history (model w1) = history (model w)
        /\ newsquest_solved_history (localStorage w1)
           = newsquest_solved_history (localStorage w))
    /\ (forall env' j, selectAnswer env' j w1 = Return w1)
    /\ gameScreen (model (reset w1)) = None
    /\ (forall R' url',
        Js.truthy url' = true ->
        gameScreen
          (model (dispatchW (IMAGE_READY url')
                    (dispatchW (RIDDLE_READY R') (reset w1))))
        = Some GameScreen.initial).
Proof.
  intros Hst HR Hurl Htruthy Hscr Hfresh.
  enough (Hmain :
    exists w1 s1,
      selectAnswer env i w = Return w1
      /\ gameScreen (model w1) = Some s1
      /\ GameScreen.selected s1 = Some i
      /\ gameState (model w1) = gameState (model w)
      /\ (i = RiddleData.answerIndex R ->
          GameScreen.is_solved s1 = true
          /\ streak (model w1) = Js.succ (streak (model w))
          /\ (forall n, streak (model w) = Js.Int n ->
              - 2 ^ 53 <= n < 2 ^ 53 ->
              streak (model w1) = Js.Int (n + 1))
          /\ (streak_room env (Js.toString (Js.succ (streak (model w)))) = true ->
              effects w1
              = saveToHistory_called R url
                  :: screen_call GameScreen.confetti
                  :: screen_call GameScreen.playCorrect :: effects w
              /\ saveToHistory env R url (localStorage (updateStreak true w))
                 = Return (history (model w1), localStorage w1)))
      /\ (i <> RiddleData.answerIndex R ->
          GameScreen.is_failed s1 = true
          /\ streak (model w1) = Js.Int 0
          /\ (forall r u, In (saveToHistory_called r u) (effects w1) ->
              In (saveToHistory_called r u) (effects w))
          /\ (streak_room env (Js.toString (Js.Int 0)) = true ->
              effects w1 = screen_call GameScreen.playIncorrect :: effects w
              /\ newsquest_streak (localStorage w1) = Some (Js.toString (Js.Int 0)))
          /\ history (model w1) = history (model w)
          /\ newsquest_solved_history (localStorage w1)
             = newsquest_solved_history (localStorage w))
      /\ (forall env' j, selectAnswer env' j w1 = Return w1)).
  { destruct Hmain as (w1 & s1 & H1 & H2 & H3 & H4 & H5 & H6 & H7).
    exists w1, s1. repeat (split; [assumption|]).
    apply new_round_after_reset. }
  destruct w as [[g topic d muted h n scr] ls fx]. simpl in *. subst scr.
  assert (Hshow : shows_GameScreen g = true).
  { unfold shows_GameScreen. rewrite Hst, HR, Hurl. exact Htruthy. }
  assert (Hplus : forall n0, n = Js.Int n0 -> - 2 ^ 53 <= n0 < 2 ^ 53 ->
                  Js.succ n = Js.Int (n0 + 1)).
  { intros n0 -> Hn0. unfold Js.succ. f_equal. apply nearest_double_exact. lia. }
  unfold selectAnswer, onScreen. simpl. rewrite HR.
  unfold GameScreen.handleSelect. rewrite Hfresh.
  destruct (Z.eqb_spec i (RiddleData.answerIndex R)) as [Heq|Hne].
  - (* the right answer *)
    simpl. unfold handleGameComplete, updateStreak_in, setItem_streak. simpl.
    destruct (streak_room env (Js.toString (Js.succ n))) eqn:Hroom.
    + (* the streak is written *)
      rewrite HR, Hurl, Htruthy. simpl.
      destruct (saveToHistory_returns env R url
                  (mkLocalStorage (newsquest_solved_history ls)
                     (Some (Js.toString (Js.succ n)))))
        as (out & ls' & Hsave).
      rewrite Hsave. simpl. unfold render. simpl. rewrite Hshow.
      eexists. eexists. split; [reflexivity|]. simpl.
      split; [reflexivity|]. split; [reflexivity|]. split; [reflexivity|].
      split; [|split].
      * intros _. split; [reflexivity|]. split; [reflexivity|].
        split; [exact Hplus|]. intros _. split; reflexivity.
      * intros Habs. contradiction.
      * intros env' j. unfold selectAnswer, onScreen. simpl. rewrite HR. simpl.
        unfold render. simpl. now rewrite Hshow.
    + (* the write of the streak is refused *)
      simpl. unfold render. simpl. rewrite Hshow.
      eexists. eexists. split; [reflexivity|]. simpl.
      split; [reflexivity|]. split; [reflexivity|]. split; [reflexivity|].
      split; [|split].
      * intros _. split; [reflexivity|]. split; [reflexivity|].
        split; [exact Hplus|]. intros Habs. discriminate Habs.
      * intros Habs. contradiction.
      * intros env' j. unfold selectAnswer, onScreen. simpl. rewrite HR. simpl.
        unfold render. simpl. now rewrite Hshow.
  - (* a wrong answer *)
    simpl. unfold handleGameComplete, updateStreak_in, setItem_streak. simpl.
    destruct (streak_room env "0") eqn:Hroom.
    + rewrite HR, Hurl. simpl. unfold render. simpl. rewrite Hshow.
      eexists. eexists. split; [reflexivity|]. simpl.
      split; [reflexivity|]. split; [reflexivity|]. split; [reflexivity|].
      split; [|split].
      * intros Habs. contradiction.
      * intros _. split; [reflexivity|]. split; [reflexivity|].
        split; [|split; [|split; reflexivity]].
        -- intros r u [Hin|Hin]; [discriminate Hin|exact Hin].
        -- intros _. split; reflexivity.
      * intros env' j. unfold selectAnswer, onScreen. simpl. rewrite HR. simpl.
        unfold render. simpl. now rewrite Hshow.
    + simpl. unfold render. simpl. rewrite Hshow.
      eexists. eexists. split; [reflexivity|]. simpl.
      split; [reflexivity|]. split; [reflexivity|]. split; [reflexivity|].
      split; [|split].
      * intros Habs. contradiction.
      * intros _. split; [reflexivity|]. split; [reflexivity|].
        split; [|split; [|split; reflexivity]].
        -- intros r u [Hin|[Hin|Hin]]; [discriminate Hin|discriminate Hin|exact Hin].
        -- intros Habs. discriminate Habs.
      * intros env' j. unfold selectAnswer, onScreen. simpl. rewrite HR. simpl.
        unfold render. simpl. now rewrite Hshow.
Qed.

(** C1, the claim as stated, fails on two playing sessions.  With a streak
    of 2^53, which the mount effect reads from the stored text, the right
    answer leaves the streak where it was.  With no room in [localStorage]
    for the text of the new streak, the right answer solves the round and
    [saveToHistory] is not called: the history is as it was. *)
Lemma C1_streak_stays_at_2_53_and_refused_write_skips_record :
  (loadStreak (localStorage long_streak_world) (Js.Int 0)
   = streak (model long_streak_world)
   /\ exists w1 s1,
        selectAnswer sample_env 2 long_streak_world = Return w1
        /\ gameScreen (model w1) = Some s1
        /\ GameScreen.is_solved s1 = true
        /\ streak (model long_streak_world) = Js.Int 9007199254740992
        /\ streak (model w1) = Js.Int 9007199254740992)
  /\ (exists w1 s1,
        selectAnswer choked_env 2 playing_world = Return w1
        /\ gameScreen (model w1) = Some s1
        /\ GameScreen.is_solved s1 = true
        /\ effects w1
           = uncaught Js.QuotaExceededError
               :: screen_call GameScreen.confetti
               :: screen_call GameScreen.playCorrect :: effects playing_world
        /\ history (model w1) = history (model playing_world)
        /\ localStorage w1 = localStorage playing_world).
Proof.
  split; [split; [vm_compute; reflexivity|]|].
  - eexists. eexists. split; [vm_compute; reflexivity|].
    split; [reflexivity|]. split; [reflexivity|]. split; reflexivity.
  - eexists. eexists. split; [vm_compute; reflexivity|].
    split; [reflexivity|]. repeat split.
Qed.

Lemma C1_witness :
  exists w1 s1,
    selectAnswer sample_env 2 playing_world = Return w1
    /\ gameScreen (model w1) = Some s1
    /\ GameScreen.is_solved s1 = true
    /\ streak (model w1) = Js.Int 1
    /\ In (saveToHistory_called (Gemini.stamp "cats" medium sample_riddle)
             "data:image/png;base64,QUJD")
          (effects w1).
Proof.
  destruct (C1_first_selection_decides_the_round sample_env playing_world
              (Gemini.stamp "cats" medium sample_riddle)
              "data:image/png;base64,QUJD" GameScreen.initial 2
              eq_refl eq_refl eq_refl eq_refl eq_refl eq_refl)
    as (w1 & s1 & Hrun & Hs & _ & _ & Hright & _).
  destruct (Hright eq_refl) as (Hsolved & _ & Hn & Hrecord).
  destruct (Hrecord eq_refl) as [Hfx _].
  exists w1, s1. split; [exact Hrun|]. split; [exact Hs|].
  split; [exact Hsolved|]. split.
  - apply (Hn 0); [reflexivity|lia].
  - rewrite Hfx. left. reflexivity.
Defined.

End AppFacts.

(** ** Further properties: numbers and texts *)

Module JsFacts.

Import Storage App Runs.


Lemma digits_step (c : ascii) (d : Z) (r : string) (acc : option Z) :
  Js.digit_of c = Some d ->
  Js.digits (String c r) acc
  = Js.digits r (Some (10 * match acc with Some a => a | None => 0 end + d)).
Proof. intros H. simpl. now rewrite H. Qed.

Ltac digit_step IH :=
  cbn [NilEmpty.string_of_uint Pos.of_uint_acc Pos.of_uint Z.of_N];
  try reflexivity;
  erewrite digits_step by reflexivity;
  match goal with
  | |- Js.digits _ (Some (10 * _ + ?d)) = _ =>
      let d' := eval vm_compute in d in change d with d'
  end;
  match goal with
  | |- Js.digits _ (Some ?z) = Some (Z.pos (Pos.of_uint_acc _ ?p)) =>
      replace z with (Z.pos p) by lia; apply IH
  | |- Js.digits _ (Some ?z) = _ =>
      replace z with 0 by lia; apply IH
  end.

Lemma digits_of_uint_acc (d : Decimal.uint) :
  forall acc : positive,
  Js.digits (NilEmpty.string_of_uint d) (Some (Z.pos acc))
  = Some (Z.pos (Pos.of_uint_acc d acc)).
Proof.
  induction d; intros acc; digit_step IHd.
Qed.

Lemma digits_of_uint (d : Decimal.uint) :
  Js.digits (NilEmpty.string_of_uint d) (Some 0)
  = Some (Z.of_N (Pos.of_uint d)).
Proof.
  induction d;
    [reflexivity | digit_step IHd | digit_step digits_of_uint_acc ..].
Qed.

Lemma digits_of_uint_start (d : Decimal.uint) :
  d <> Decimal.Nil ->
  Js.digits (NilEmpty.string_of_uint d) None = Some (Z.of_N (Pos.of_uint d)).
Proof.
  destruct d; intros Hd;
    [contradiction | digit_step digits_of_uint | digit_step digits_of_uint_acc ..].
Qed.

Lemma parseInt_of_uint (d : Decimal.uint) :
  d <> Decimal.Nil ->
  Js.parseInt (NilEmpty.string_of_uint d) = Js.Int (Z.of_N (Pos.of_uint d)).
Proof.
  intros Hd. pose proof (digits_of_uint_start d Hd) as H.
  destruct d; try contradiction;
    cbn [NilEmpty.string_of_uint] in *;
    unfold Js.parseInt; cbn [Js.skip_spaces];
    (match goal with
     | |- context [Js.is_space ?c] =>
         change (Js.is_space c) with false; cbv iota
     end);
    unfold Js.of_digits; rewrite H; f_equal; lia.
Qed.

Lemma to_uint_not_Nil (p : positive) : Pos.to_uint p <> Decimal.Nil.
Proof.
  intros H. pose proof (DecimalPos.Unsigned.of_to p) as Hp.
  rewrite H in Hp. discriminate Hp.
Qed.

Lemma string_of_uint_digits (d : Decimal.uint) :
  d <> Decimal.Nil ->
  NilZero.string_of_uint d = NilEmpty.string_of_uint d.
Proof. destruct d; intros Hd; [contradiction | reflexivity ..]. Qed.

Lemma parseInt_minus (s : string) :
  Js.parseInt (String "-" s) = Js.of_digits (-1) s.
Proof. reflexivity. Qed.

Lemma parseInt_toString (x : Js.Number) : Js.parseInt (Js.toString x) = x.
Proof.
  destruct x as [[|p|p]|]; try reflexivity;
    pose proof (to_uint_not_Nil p) as Hp;
    unfold Js.toString, Z.to_int, NilZero.string_of_int;
    rewrite string_of_uint_digits by exact Hp.
  - rewrite parseInt_of_uint by exact Hp.
    now rewrite DecimalPos.Unsigned.of_to.
  - rewrite parseInt_minus. unfold Js.of_digits.
    rewrite digits_of_uint_start by exact Hp.
    now rewrite DecimalPos.Unsigned.of_to.
Qed.

Lemma toString_truthy (x : Js.Number) : Js.truthy (Js.toString x) = true.
Proof.
  destruct x as [[|p|p]|]; try reflexivity.
  unfold Js.toString, Z.to_int, NilZero.string_of_int.
  pose proof (to_uint_not_Nil p) as Hp.
  rewrite string_of_uint_digits by exact Hp.
  destruct (Pos.to_uint p); [contradiction | reflexivity ..].
Qed.

(** X1. The streak survives a reload.  The text that [updateStreak] writes
    for a streak in the range of exact integers (or for [NaN]) is read back
    by [parseInt] as the same number, so the mount effect that runs on the
    [localStorage] left by [updateStreak] sets the streak to the value
    [updateStreak] gave it. *)
Theorem streak_survives_reload (increment : bool) (w : World) :
  safe (streak (model (updateStreak increment w))) ->
  newsquest_streak (localStorage (updateStreak increment w))
  = Some (Js.toString (streak (model (updateStreak increment w))))
  /\ Js.parseInt (Js.toString (streak (model (updateStreak increment w))))
     = streak (model (updateStreak increment w))
  /\ exists w',
       mount (localStorage (updateStreak increment w)) = Return w'
       /\ streak (model w') = streak (model (updateStreak increment w)).
Proof.
  intros _. split; [reflexivity|]. split; [apply parseInt_toString|].
  unfold mount, initEffect.
  destruct (StorageFacts.getHistory_returns (localStorage (updateStreak increment w)))
    as [h Hh].
  cbn [localStorage model]. rewrite Hh. cbn [Js.bind].
  eexists. split; [reflexivity|].
  cbn [model streak setStreak]. unfold loadStreak.
  cbn [updateStreak localStorage newsquest_streak model streak setStreak].
  now rewrite toString_truthy, parseInt_toString.
Qed.

Lemma streak_survives_reload_witness :
  exists w',
    mount (localStorage (updateStreak true Scenario.playing_world)) = Return w'
    /\ streak (model w') = Js.Int 1.
Proof.
  destruct (streak_survives_reload true Scenario.playing_world) as (_ & _ & w' & H1 & H2).
  - vm_compute. split; reflexivity.
  - exists w'. split; [exact H1|exact H2].
Defined.

End JsFacts.

(** ** Further properties: the history store *)

Module StoreFacts.

Import Storage App Scenario Runs.

(** X2. Whenever [saveToHistory] returns, it has left the streak key as it
    was, and the history key either untouched or holding exactly the list
    it returns; the list that a reload then shows is the one [getHistory]
    reads from the store it left. *)
Theorem saveToHistory_leaves_store_untouched_or_equal_to_result
    (env : Env) (riddle : RiddleData.Riddle) (imageUrl : string)
    (ls : LocalStorage) (out : list HistoryItem.Item) (ls' : LocalStorage) :
  saveToHistory env riddle imageUrl ls = Return (out, ls') ->
  newsquest_streak ls' = newsquest_streak ls
  /\ (ls' = ls \/ newsquest_solved_history ls' = Some (JsonArray out))
  /\ exists w',
       mount ls' = Return w'
       /\ getHistory ls' = Return (history (model w')).
Proof.
  intros Hreturned.
  destruct (StorageFacts.getHistory_returns ls) as [old Hget].
  destruct (StorageFacts.saveToHistory_spec env riddle imageUrl ls old Hget)
    as (out0 & ls0 & Hrun & Hknown & Hfresh).
  rewrite Hreturned in Hrun. injection Hrun as <- <-.
  assert (Hstore : newsquest_streak ls' = newsquest_streak ls
                   /\ (ls' = ls \/ newsquest_solved_history ls' = Some (JsonArray out))).
  { destruct (in_dec string_dec (RiddleData.riddle_question riddle) (questions old))
      as [Hin|Hnot].
    - destruct (Hknown Hin) as [_ ->]. split; [reflexivity|now left].
    - destruct (Hfresh Hnot) as (k & -> & _ & _ & Hp). cbv zeta in Hp.
      destruct Hp as [[_ ->]|(_ & _ & ->)].
      + split; [reflexivity|now right].
      + split; [reflexivity|now left]. }
  destruct Hstore as [Hstreak Hhist].
  split; [exact Hstreak|]. split; [exact Hhist|].
  destruct (StorageFacts.getHistory_returns ls') as [h Hh].
  unfold mount, initEffect. cbn [localStorage]. rewrite Hh. cbn [Js.bind].
  eexists. split; [reflexivity|]. reflexivity.
Qed.

Lemma saveToHistory_leaves_store_witness :
  newsquest_streak
    (mkLocalStorage
       (Some (JsonArray [newItem tight_env (asking "q4") "data:,";
                         sample_item "q3"]))
       (Some "3"))
  = newsquest_streak three_store
  /\ exists w',
       mount (mkLocalStorage
                (Some (JsonArray [newItem tight_env (asking "q4") "data:,";
                                  sample_item "q3"]))
                (Some "3"))
       = Return w'
       /\ history (model w')
          = [newItem tight_env (asking "q4") "data:,"; sample_item "q3"].
Proof.
  assert (Hrun : saveToHistory tight_env (asking "q4") "data:," three_store
                 = Return ([newItem tight_env (asking "q4") "data:,";
                            sample_item "q3"],
                           mkLocalStorage
                             (Some (JsonArray [newItem tight_env (asking "q4") "data:,";
                                               sample_item "q3"]))
                             (Some "3"))).
  { vm_compute. reflexivity. }
  destruct (saveToHistory_leaves_store_untouched_or_equal_to_result
              tight_env (asking "q4") "data:," three_store _ _ Hrun)
    as (Hstreak & _ & w' & Hmount & Hget).
  split; [exact Hstreak|].
  exists w'. split; [exact Hmount|].
  vm_compute in Hget. injection Hget as Hshown. symmetry. exact Hshown.
Defined.

(** X3. [handleClearHistory] empties the list in memory and the one in
    [localStorage], whatever they held, and touches neither the streak nor
    the session; the buttons that open the collection leave the tree.  The
    "Clear" button does nothing on an empty collection or when the
    confirmation is declined.  On the cleared store a [saveToHistory] that
    finds room returns and stores the new entry alone. *)
Theorem clearing_empties_memory_and_store (w : World) :
  let w' := handleClearHistory w in
  history (model w') = []
  /\ getHistory (localStorage w') = Return []
  /\ newsquest_streak (localStorage w') = newsquest_streak (localStorage w)
  /\ streak (model w') = streak (model w)
  /\ gameState (model w') = gameState (model w)
  /\ Menu.collection_shown w' = false
  /\ (forall confirm,
        history (model w) = [] \/ confirm = false ->
        Menu.clickClear confirm w = w)
  /\ (forall env riddle imageUrl,
        room env [newItem env riddle imageUrl] = true ->
        saveToHistory env riddle imageUrl (localStorage w')
        = Return ([newItem env riddle imageUrl],
                  mkLocalStorage (Some (JsonArray [newItem env riddle imageUrl]))
                    (newsquest_streak (localStorage w)))).
Proof.
  destruct w as [[g topic d muted h n scr] ls fx]. cbv zeta.
  unfold handleClearHistory, clearHistory. simpl.
  repeat (split; [reflexivity|]). split; [|split].
  - unfold Menu.collection_shown. simpl. now rewrite andb_false_r.
  - intros confirm [Hempty|Hno]; unfold Menu.clickClear; simpl in *.
    + subst h. simpl. now rewrite andb_false_r.
    + subst confirm. now rewrite andb_false_r.
  - intros env riddle imageUrl Hroom.
    unfold saveToHistory, getHistory. simpl.
    rewrite StorageFacts.persist_cons. unfold setItem. now rewrite Hroom.
Qed.

Lemma clearing_witness :
  Menu.clickClear false Scenario.answered_world = Scenario.answered_world
  /\ saveToHistory sample_env sample_riddle "data:,"
       (localStorage (handleClearHistory Scenario.answered_world))
     = Return ([newItem sample_env sample_riddle "data:,"],
               mkLocalStorage
                 (Some (JsonArray [newItem sample_env sample_riddle "data:,"]))
                 (newsquest_streak (localStorage Scenario.answered_world))).
Proof.
  destruct (clearing_empties_memory_and_store Scenario.answered_world)
    as (_ & _ & _ & _ & _ & _ & Hclick & Hsave).
  split.
  - apply Hclick. right. reflexivity.
  - apply Hsave. reflexivity.
Defined.

Lemma StronglySorted_firstn (k : nat) (l : list Z) :
  StronglySorted Z.ge l -> StronglySorted Z.ge (firstn k l).
Proof.
  revert k. induction l as [|a l IH]; intros k Hs.
  - rewrite firstn_nil. constructor.
  - destruct k as [|k]; [constructor|]. simpl.
    inversion Hs as [|? ? Hs' Hall]; subst. constructor.
    + now apply IH.
    + rewrite Forall_forall in *. intros z Hz. apply Hall.
      revert Hz. clear. revert k.
      induction l as [|b l IHl]; intros [|k]; simpl; try tauto.
      intros [H|H]; [now left|right; eauto].
Qed.

Lemma firstn_incl_Z (k : nat) (l : list Z) (z : Z) :
  In z (firstn k l) -> In z l.
Proof.
  revert k. induction l as [|b l IHl]; intros [|k]; simpl; try tauto.
  intros [H|H]; [now left|right; eauto].
Qed.

(** One call keeps the list newest first, in what it returns and in what it
    leaves in the store, when its clock reading is not before any stored
    time stamp; the time stamps it leaves are stored ones or its own. *)
Lemma saveToHistory_newest_first env riddle imageUrl ls old :
  getHistory ls = Return old ->
  newest_first old ->
  Forall (fun t => t <= now_timestamp env) (timestamps old) ->
  exists out ls' old',
    saveToHistory env riddle imageUrl ls = Return (out, ls')
    /\ newest_first out
    /\ getHistory ls' = Return old'
    /\ newest_first old'
    /\ Forall (fun t => In t (timestamps old) \/ t = now_timestamp env)
         (timestamps old').
Proof.
  intros Hget Hold Hclock.
  destruct (StorageFacts.saveToHistory_spec env riddle imageUrl ls old Hget)
    as (out & ls' & Hrun & Hknown & Hfresh).
  assert (Hself : Forall (fun t => In t (timestamps old) \/ t = now_timestamp env)
                    (timestamps old)).
  { rewrite Forall_forall. intros t Ht. now left. }
  destruct (in_dec string_dec (RiddleData.riddle_question riddle) (questions old))
    as [Hin|Hnot].
  - destruct (Hknown Hin) as [-> ->]. exists old, ls, old.
    split; [exact Hrun|]. repeat split; assumption.
  - destruct (Hfresh Hnot) as (k & -> & Hk & _ & Hp). cbv zeta in *.
    assert (Hcand : newest_first (firstn k (candidate env riddle imageUrl old))
                    /\ Forall (fun t => In t (timestamps old) \/ t = now_timestamp env)
                         (timestamps (firstn k (candidate env riddle imageUrl old)))).
    { unfold newest_first, timestamps, candidate. rewrite <- !firstn_map.
      split.
      - apply StronglySorted_firstn, StronglySorted_firstn. simpl.
        constructor; [exact Hold|].
        unfold timestamps in Hclock. rewrite Forall_forall in *.
        intros t Ht. specialize (Hclock t Ht). lia.
      - rewrite Forall_forall. intros t Ht.
        apply firstn_incl_Z, firstn_incl_Z in Ht. simpl in Ht.
        destruct Ht as [<-|Ht]; [now right|now left]. }
    destruct Hcand as [Hsorted Hfrom].
    destruct Hp as [[_ ->]|(_ & _ & ->)].
    + eexists _, _, _. split; [exact Hrun|]. split; [exact Hsorted|].
      split; [apply StorageFacts.getHistory_written|]. split; assumption.
    + eexists _, _, old. split; [exact Hrun|]. split; [exact Hsorted|].
      repeat split; assumption.
Qed.

Lemma record_all_newest_first (calls : list RecordCall) :
  clock_never_goes_back calls ->
  forall ls old,
  getHistory ls = Return old ->
  newest_first old ->
  Forall (fun c => Forall (fun t => t <= now_timestamp (call_env c)) (timestamps old))
    calls ->
  exists outs ls' old',
    record_all calls ls = Return (outs, ls')
    /\ Forall newest_first outs
    /\ getHistory ls' = Return old'
    /\ newest_first old'.
Proof.
  unfold clock_never_goes_back.
  induction calls as [|c calls IH]; intros Hclock ls old Hget Hold Hbefore.
  - exists [], ls, old. split; [reflexivity|]. split; [constructor|].
    split; assumption.
  - simpl in Hclock. inversion Hclock as [|? ? Hclock' Hlater]; subst.
    inversion Hbefore as [|? ? Hc Hrest]; subst.
    destruct (saveToHistory_newest_first (call_env c) (call_riddle c)
                (call_imageUrl c) ls old Hget Hold Hc)
      as (out & ls1 & old1 & Hrun & Hout & Hget1 & Hold1 & Hfrom).
    assert (Hbefore1 :
              Forall (fun c' => Forall (fun t => t <= now_timestamp (call_env c'))
                                  (timestamps old1)) calls).
    { rewrite Forall_forall. intros c' Hc'.
      rewrite Forall_forall in Hrest. specialize (Hrest c' Hc').
      rewrite Forall_forall in Hlater.
      assert (Hle : now_timestamp (call_env c) <= now_timestamp (call_env c')).
      { apply Hlater. apply in_map_iff. now exists c'. }
      rewrite Forall_forall in *. intros t Ht.
      destruct (Hfrom t Ht) as [Hin| ->]; [now apply Hrest|exact Hle]. }
    destruct (IH Hclock' ls1 old1 Hget1 Hold1 Hbefore1)
      as (outs & ls2 & old2 & Hruns & Houts & Hget2 & Hold2).
    exists (out :: outs), ls2, old2. split.
    + simpl. rewrite Hrun. cbn [Js.bind]. rewrite Hruns. reflexivity.
    + split; [now constructor|]. split; assumption.
Qed.

(** X4. When the clock readings of a sequence of [saveToHistory] calls
    never go back, every list returned, and the list left in the store, is
    ordered by time stamp, newest first; this holds from an empty store and
    whatever writes fail. *)
Theorem history_is_newest_first_by_timestamp
    (streak_text : option string) (calls : list RecordCall) :
  clock_never_goes_back calls ->
  exists outs ls h,
    record_all calls (mkLocalStorage None streak_text) = Return (outs, ls)
    /\ Forall newest_first outs
    /\ getHistory ls = Return h
    /\ newest_first h.
Proof.
  intros Hclock.
  apply (record_all_newest_first calls Hclock (mkLocalStorage None streak_text) []).
  - reflexivity.
  - constructor.
  - rewrite Forall_forall. intros c _. constructor.
Qed.

Lemma history_is_newest_first_witness :
  exists outs ls h,
    record_all [call_at 10 "q1"; call_at 10 "q2"; call_at 25 "q3"]
      (mkLocalStorage None None) = Return (outs, ls)
    /\ getHistory ls = Return h
    /\ timestamps h = [25; 10; 10].
Proof.
  destruct (history_is_newest_first_by_timestamp None
              [call_at 10 "q1"; call_at 10 "q2"; call_at 25 "q3"])
    as (outs & ls & h & Hruns & _ & Hget & _).
  - unfold clock_never_goes_back. simpl.
    repeat constructor; lia.
  - vm_compute in Hruns. injection Hruns as <- <-.
    vm_compute in Hget. injection Hget as <-.
    eexists _, _, _. split; [reflexivity|]. split; reflexivity.
Defined.

End StoreFacts.

(** ** Further properties: the generation client *)

Module ClientFacts.

Import Gemini Runs.

Lemma first_image_finds (before : list Part) (p : Part) (rest : list Part) :
  Forall (fun q => carries_image q = false) before ->
  carries_image p = true ->
  first_image (before ++ p :: rest) = Some (data_uri p).
Proof.
  intros Hbefore Hp. induction Hbefore as [|q before Hq _ IH]; simpl.
  - unfold carries_image, data_uri in *.
    destruct (inlineData p) as [i|]; [|discriminate].
    destruct (data i) as [d|]; [|discriminate]. simpl in Hp. now rewrite Hp.
  - unfold carries_image in Hq.
    destruct (inlineData q) as [i|]; [|exact IH].
    destruct (data i) as [d|]; [|exact IH]. simpl in Hq. now rewrite Hq.
Qed.

Lemma first_image_none (ps : list Part) :
  Forall (fun q => carries_image q = false) ps -> first_image ps = None.
Proof.
  intros H. induction H as [|q ps Hq _ IH]; simpl; [reflexivity|].
  unfold carries_image in Hq.
  destruct (inlineData q) as [i|]; [|exact IH].
  destruct (data i) as [d|]; [|exact IH]. simpl in Hq. now rewrite Hq.
Qed.

Lemma first_image_split (ps : list Part) (url : string) :
  first_image ps = Some url ->
  exists before p rest,
    ps = (before ++ p :: rest)%list
    /\ Forall (fun q => carries_image q = false) before
    /\ carries_image p = true
    /\ url = data_uri p.
Proof.
  induction ps as [|q ps IH]; simpl; [discriminate|].
  intros H.
  destruct (carries_image q) eqn:Hq.
  - exists [], q, ps. split; [reflexivity|]. split; [constructor|].
    split; [exact Hq|].
    pose proof (first_image_finds [] q ps (Forall_nil _) Hq) as Hf.
    simpl in Hf. congruence.
  - assert (Hskip : first_image ps = Some url).
    { unfold carries_image in Hq.
      destruct (inlineData q) as [i|]; [|exact H].
      destruct (data i) as [d|]; [|exact H]. simpl in Hq.
      now rewrite Hq in H. }
    destruct (IH Hskip) as (before & p & rest & -> & Hb & Hp & Hu).
    exists (q :: before), p, rest. split; [reflexivity|].
    split; [now constructor|]. now split.
Qed.

Lemma data_uri_truthy (p : Part) :
  carries_image p = true -> Js.truthy (data_uri p) = true.
Proof.
  unfold carries_image, data_uri.
  destruct (inlineData p); [reflexivity|discriminate].
Qed.

Lemma generateRiddleImage_split prompt reply url :
  generateRiddleImage prompt reply = Return url <->
  exists before p rest,
    reply = Resolved (Some (before ++ p :: rest)%list)
    /\ Forall (fun q => carries_image q = false) before
    /\ carries_image p = true
    /\ url = data_uri p.
Proof.
  split.
  - unfold generateRiddleImage.
    destruct reply as [e|[ps|]]; simpl; try discriminate.
    destruct (first_image ps) as [u|] eqn:Hf; simpl; [|discriminate].
    intros H. injection H as <-.
    destruct (first_image_split ps u Hf) as (before & p & rest & -> & Hb & Hp & Hu).
    now exists before, p, rest.
  - intros (before & p & rest & -> & Hb & Hp & ->).
    unfold generateRiddleImage. simpl.
    now rewrite (first_image_finds before p rest Hb Hp).
Qed.

Lemma generateRiddleImage_truthy prompt reply url :
  generateRiddleImage prompt reply = Return url -> Js.truthy url = true.
Proof.
  intros Hret. apply generateRiddleImage_split in Hret.
  destruct Hret as (_ & p & _ & _ & _ & Hp & ->). now apply data_uri_truthy.
Qed.

Lemma fetchTrendingNews_found (found : string) :
  found <> "" -> fetchTrendingNews (Resolved (Some found)) = Return found.
Proof.
  intros H. unfold fetchTrendingNews. simpl. unfold Js.truthy.
  now destruct (String.eqb_spec found "").
Qed.

(** X5. [generateRiddleImage] returns exactly when the reply has a part
    with inline data that is not empty, and then returns the data URI of the
    first such part, typed with the part's mime type or "image/png"; parts
    after it are not looked at.  In every other case (rejected call, no
    parts, no part with an image) it throws the error "Failed to generate
    the riddle image.".  What it returns is never the empty string. *)
Theorem image_is_the_first_inline_part
    (prompt : string) (reply : Reply (option (list Part))) :
  (forall url,
     generateRiddleImage prompt reply = Return url <->
     exists before p rest,
       reply = Resolved (Some (before ++ p :: rest)%list)
       /\ Forall (fun q => carries_image q = false) before
       /\ carries_image p = true
       /\ url = data_uri p)
  /\ ((forall ps, reply = Resolved (Some ps) ->
       Forall (fun q => carries_image q = false) ps) ->
      generateRiddleImage prompt reply
      = Throw (Js.error "Failed to generate the riddle image."))
  /\ (forall url,
        generateRiddleImage prompt reply = Return url -> Js.truthy url = true).
Proof.
  split; [intros url; apply generateRiddleImage_split|]. split.
  - intros Hnone. unfold generateRiddleImage.
    destruct reply as [e|[ps|]]; simpl; try reflexivity.
    now rewrite (first_image_none ps (Hnone ps eq_refl)).
  - intros url. apply generateRiddleImage_truthy.
Qed.

Lemma image_is_the_first_inline_part_witness :
  generateRiddleImage "a cat"
    (Resolved (Some [mkPart None; image_part; mkPart None]))
  = Return "data:image/jpeg;base64,QUJD"
  /\ generateRiddleImage "a cat" (Resolved (Some [mkPart None]))
     = Throw (Js.error "Failed to generate the riddle image.").
Proof.
  split.
  - apply (image_is_the_first_inline_part "a cat"
             (Resolved (Some [mkPart None; image_part; mkPart None]))).
    exists [mkPart None], image_part, [mkPart None].
    split; [reflexivity|]. split; [repeat constructor|]. split; reflexivity.
  - apply (image_is_the_first_inline_part "a cat" (Resolved (Some [mkPart None]))).
    intros ps H. injection H as <-. repeat constructor.
Defined.

(** X6. [fetchTrendingNews] returns exactly when the call resolves with a
    text that is not empty, and then returns that text unchanged.  In every
    other case it throws the error "Could not fetch trending news. Please
    try a manual topic.": neither the error of the service nor the inner
    "Failed to find trending news." reaches the caller.  A topic it returns
    is never empty. *)
Theorem trending_topic_or_one_message (reply : Reply (option string)) :
  (forall t, fetchTrendingNews reply = Return t <->
             reply = Resolved (Some t) /\ t <> "")
  /\ ((forall t, reply = Resolved (Some t) -> t = "") ->
      fetchTrendingNews reply
      = Throw (Js.error "Could not fetch trending news. Please try a manual topic."))
  /\ (forall e, fetchTrendingNews reply = Throw e ->
                e = Js.error "Could not fetch trending news. Please try a manual topic.").
Proof.
  unfold fetchTrendingNews.
  destruct reply as [e0|[t0|]]; simpl.
  - split; [|split]; try reflexivity.
    + intros t. split; [discriminate|]. intros [H _]. discriminate H.
    + intros e H. now injection H as <-.
  - unfold Js.truthy. destruct (String.eqb_spec t0 "") as [->|Hne]; simpl.
    + split; [|split]; try reflexivity.
      * intros t. split; [discriminate|]. intros [H Ht].
        injection H as <-. contradiction.
      * intros e H. now injection H as <-.
    + split; [|split].
      * intros t. split.
        -- intros H. injection H as <-. now split.
        -- intros [H _]. now injection H as <-.
      * intros Hall. now destruct (Hne (Hall t0 eq_refl)).
      * intros e H. discriminate H.
  - split; [|split]; try reflexivity.
    + intros t. split; [discriminate|]. intros [H _]. discriminate H.
    + intros e H. now injection H as <-.
Qed.

Lemma trending_topic_witness :
  fetchTrendingNews (Resolved (Some "Rover lands on Mars"))
  = Return "Rover lands on Mars"
  /\ fetchTrendingNews (Rejected (Js.error "429"))
     = Throw (Js.error "Could not fetch trending news. Please try a manual topic.").
Proof.
  split.
  - apply (trending_topic_or_one_message (Resolved (Some "Rover lands on Mars"))).
    split; [reflexivity|discriminate].
  - apply (trending_topic_or_one_message (Rejected (Js.error "429"))).
    intros t H. discriminate H.
Defined.

End ClientFacts.

(** ** Further properties: the session *)

Module SessionFacts.

Import Storage App Scenario Runs.

Lemma skip_spaces_blank (s : string) :
  Js.skip_spaces s = "" <-> blank s = true.
Proof.
  unfold blank. induction s as [|c r IH]; simpl.
  - tauto.
  - destruct (Js.is_space c); simpl; [exact IH|].
    split; discriminate.
Qed.

Lemma skip_spaces_settled (s : string) :
  blank (Js.skip_spaces s) = true -> Js.skip_spaces s = "".
Proof.
  unfold blank. induction s as [|c r IH]; simpl; [reflexivity|].
  destruct (Js.is_space c) eqn:Hc; [exact IH|].
  simpl. rewrite Hc. discriminate.
Qed.

Lemma reverse_empty (s : string) : Js.reverse s = "" -> s = "".
Proof.
  unfold Js.reverse. intros H.
  apply (f_equal list_ascii_of_string) in H.
  rewrite list_ascii_of_string_of_list_ascii in H. simpl in H.
  rewrite <- (string_of_list_ascii_of_string s).
  destruct (list_ascii_of_string s) as [|c l]; [reflexivity|].
  simpl in H. now destruct (rev l).
Qed.

Lemma blank_reverse (s : string) : blank (Js.reverse s) = blank s.
Proof.
  unfold blank, Js.reverse. rewrite list_ascii_of_string_of_list_ascii.
  destruct (forallb Js.is_space (list_ascii_of_string s)) eqn:H.
  - rewrite forallb_forall in *. intros c Hc. apply H. now apply in_rev.
  - destruct (forallb Js.is_space (rev (list_ascii_of_string s))) eqn:H';
      [|reflexivity].
    rewrite <- H. symmetry. rewrite forallb_forall in *.
    intros c Hc. apply H'. now apply in_rev in Hc.
Qed.

(** [s.trim()] is empty exactly when [s] is white space only. *)
Lemma trim_blank (s : string) : Js.trim s = "" <-> blank s = true.
Proof.
  unfold Js.trim. split.
  - intros H. apply reverse_empty in H. apply skip_spaces_blank in H.
    rewrite blank_reverse in H. apply skip_spaces_settled in H.
    now apply skip_spaces_blank.
  - intros H. apply skip_spaces_blank in H. now rewrite H.
Qed.

Lemma truthy_trim (s : string) : Js.truthy (Js.trim s) = negb (blank s).
Proof.
  unfold Js.truthy. destruct (String.eqb_spec (Js.trim s) "") as [H|H].
  - apply trim_blank in H. now rewrite H.
  - destruct (blank s) eqn:Hb; [|reflexivity].
    apply trim_blank in Hb. contradiction.
Qed.

Lemma space_not_visible (c : ascii) :
  Js.is_space c = true ->
  ((33 <=? nat_of_ascii c) && (nat_of_ascii c <=? 126))%nat = false.
Proof.
  unfold Js.is_space. cbv zeta.
  destruct (Nat.leb_spec 33 (nat_of_ascii c)); [|reflexivity].
  intros Hc. repeat (apply orb_prop in Hc; destruct Hc as [Hc|Hc]);
    apply Nat.eqb_eq in Hc; lia.
Qed.

Lemma visible_not_blank (s : string) : has_visible s = true -> blank s = false.
Proof.
  unfold has_visible, blank. induction (list_ascii_of_string s) as [|c l IH];
    cbn [existsb forallb]; [discriminate|].
  destruct (Js.is_space c) eqn:Hc; [|reflexivity].
  rewrite (space_not_visible c Hc). exact IH.
Qed.

(** X7. A manual start issues no call when the typed topic is white space
    only, and then changes nothing in the session; when the topic has a
    visible character the session goes to [generating_riddle] with the
    error cleared and the call is issued for the topic as typed, not
    trimmed, with the difficulty chosen.  The "Generate Riddle" button and the Enter key agree on this.
    After [reset] the topic is empty, so a manual start issues no call until
    a topic is typed again.  A start on a trending category ignores the
    typed topic. *)
Theorem manual_start_needs_a_topic (category : option string) (w : World) :
  (blank (customTopic (model w)) = true ->
   handleStartGame false category w = (log startBGM w, None))
  /\ (has_visible (customTopic (model w)) = true ->
      handleStartGame false category w
      = (dispatchW START_GEN_RIDDLE (log startBGM w),
         Some (AwaitRiddle (customTopic (model w)) (difficulty (model w))))
      /\ GameState.status
           (gameState (model (fst (handleStartGame false category w))))
         = generating_riddle
      /\ GameState.error
           (gameState (model (fst (handleStartGame false category w))))
         = None)
  /\ snd (Menu.clickGenerate w) = snd (Menu.pressEnter w)
  /\ (blank (customTopic (model w)) = true ->
      model (fst (Menu.pressEnter w)) = model w
      /\ Menu.clickGenerate w = (w, None))
  /\ snd (handleStartGame false category (reset w)) = None
  /\ (forall c,
        handleStartGame true (Some c) w
        = (dispatchW START_SEARCH (log startBGM w),
           Some (AwaitTopic (difficulty (model w))))).
Proof.
  destruct w as [[[st r u sel hr err sc] topic d muted h n scr] ls fx].
  unfold Menu.clickGenerate, Menu.pressEnter, Menu.generate_disabled,
    Menu.menu_shown, handleStartGame.
  cbn [model log customTopic difficulty gameState GameState.status].
  rewrite !truthy_trim, !negb_involutive.
  split; [|split; [|split; [|split; [|split]]]].
  - now intros ->.
  - intros Hv. rewrite (visible_not_blank topic Hv). now repeat split.
  - destruct st; destruct (blank topic); reflexivity.
  - intros ->. split; [now destruct st|]. destruct st; reflexivity.
  - reflexivity.
  - reflexivity.
Qed.

Lemma manual_start_witness :
  handleStartGame false None
    (mkWorld (setCustomTopic "  " initialModel) (mkLocalStorage None None) [])
  = (log startBGM
       (mkWorld (setCustomTopic "  " initialModel) (mkLocalStorage None None) []),
     None)
  /\ snd (handleStartGame false None typed_world)
     = Some (AwaitRiddle "cats" medium).
Proof.
  split.
  - apply (manual_start_needs_a_topic None
             (mkWorld (setCustomTopic "  " initialModel) (mkLocalStorage None None) [])).
    reflexivity.
  - destruct (manual_start_needs_a_topic None typed_world) as (_ & H & _).
    destruct (H eq_refl) as [-> _]. reflexivity.
Defined.


(** X8. A pipeline whose calls all succeed ends in the playing phase,
    whatever the session held before: started on a typed topic that has a
    visible character (or on a
    trending category, with the topic the service found), it leaves no call
    outstanding, stores the riddle stamped with the topic and the
    difficulty chosen and the image URL, shows no error, and mounts a
    [GameScreen] in its initial state (no selection, no hint revealed); the
    streak, the history and [localStorage] are as before. *)
Theorem successful_pipeline_reaches_playing
    (category : option string) (w : World) (data : RiddleData.Riddle)
    (image : Gemini.Reply (option (list Gemini.Part))) (url : string) :
  Gemini.generateRiddleImage (RiddleData.image_prompt data) image = Return url ->
  let finished (topic : string) (w' : World) (k : option Await) : Prop :=
    k = None
    /\ gameState (model w')
       = GameState.mkState playing
           (Some (Gemini.stamp topic (difficulty (model w)) data)) (Some url)
           (GameState.selectedAnswer (gameState (model w)))
           (GameState.hintsRevealed (gameState (model w)))
           None
           (GameState.score (gameState (model w)))
    /\ gameScreen (model w') = Some GameScreen.initial
    /\ streak (model w') = streak (model w)
    /\ history (model w') = history (model w)
    /\ localStorage w' = localStorage w in
  (has_visible (customTopic (model w)) = true ->
   finished (customTopic (model w))
     (fst (play_through false category
             [RiddleSettled (Gemini.Resolved (Some (Gemini.RiddleJson data)));
              ImageSettled image] w))
     (snd (play_through false category
             [RiddleSettled (Gemini.Resolved (Some (Gemini.RiddleJson data)));
              ImageSettled image] w)))
  /\ (forall found,
        found <> "" ->
        finished found
          (fst (play_through true category
                  [TopicSettled (Gemini.Resolved (Some found));
                   RiddleSettled (Gemini.Resolved (Some (Gemini.RiddleJson data)));
                   ImageSettled image] w))
          (snd (play_through true category
                  [TopicSettled (Gemini.Resolved (Some found));
                   RiddleSettled (Gemini.Resolved (Some (Gemini.RiddleJson data)));
                   ImageSettled image] w))).
Proof.
  intros Himage.
  assert (Htruthy : Js.truthy url = true).
  { exact (ClientFacts.generateRiddleImage_truthy _ _ _ Himage). }
  destruct w as [[[st r u sel hr err sc] topic d muted h n scr] ls fx].
  cbv zeta. split.
  - intros Hv. cbn [model customTopic] in Hv.
    pose proof (visible_not_blank topic Hv) as Hblank.
    unfold play_through, handleStartGame.
    cbn [model log customTopic]. rewrite truthy_trim, Hblank.
    cbn -[Gemini.generateRiddleImage Js.truthy].
    rewrite Himage. cbn -[Js.truthy]. unfold render. cbn -[Js.truthy].
    rewrite Htruthy. now repeat split.
  - intros found Hfound. unfold play_through, handleStartGame.
    cbn -[Gemini.generateRiddleImage Gemini.fetchTrendingNews Js.truthy].
    rewrite (ClientFacts.fetchTrendingNews_found found Hfound).
    cbn -[Gemini.generateRiddleImage Js.truthy].
    rewrite Himage. cbn -[Js.truthy]. unfold render. cbn -[Js.truthy].
    rewrite Htruthy. now repeat split.
Qed.

Lemma successful_pipeline_witness :
  GameState.status
    (gameState
       (model
          (fst (play_through false None
                  [RiddleSettled (riddle_reply sample_riddle);
                   ImageSettled image_reply] typed_world))))
  = playing.
Proof.
  destruct (successful_pipeline_reaches_playing None typed_world sample_riddle
              image_reply "data:image/png;base64,QUJD" eq_refl) as [H _].
  destruct (H eq_refl) as (_ & Hg & _).
  unfold riddle_reply. now rewrite Hg.
Defined.

(** X9. [toggleMute] flips the mute flag and runs the mount effect again:
    it returns, puts in memory the list that [localStorage] holds, whatever
    the list in memory was, and reads the streak again from the store (the
    streak in memory stays when the store has none); the session, the typed
    topic, the difficulty, the [GameScreen] and [localStorage] are as
    before.  Toggling twice gives the mute flag back. *)
Theorem toggling_mute_reloads_from_store (w : World) :
  exists w1 w2 stored,
    toggleMute w = Return w1
    /\ isMuted (model w1) = negb (isMuted (model w))
    /\ getHistory (localStorage w) = Return stored
    /\ history (model w1) = stored
    /\ streak (model w1) = loadStreak (localStorage w) (streak (model w))
    /\ (newsquest_streak (localStorage w) = None ->
        streak (model w1) = streak (model w))
    /\ gameState (model w1) = gameState (model w)
    /\ customTopic (model w1) = customTopic (model w)
    /\ difficulty (model w1) = difficulty (model w)
    /\ gameScreen (model w1) = gameScreen (model w)
    /\ localStorage w1 = localStorage w
    /\ toggleMute w1 = Return w2
    /\ isMuted (model w2) = isMuted (model w).
Proof.
  destruct w as [[g topic d muted h n scr] ls fx].
  destruct (StorageFacts.getHistory_returns ls) as [stored Hget].
  unfold toggleMute, initEffect. cbn [model localStorage effects].
  rewrite Hget. cbn [Js.bind].
  eexists _, _, stored. split; [reflexivity|].
  cbn. rewrite Hget. cbn.
  repeat (split; [reflexivity|]). split.
  - unfold loadStreak. simpl. now intros ->.
  - repeat (split; [reflexivity|]). simpl. apply negb_involutive.
Qed.

Lemma toggling_mute_witness :
  exists w1, toggleMute typed_world = Return w1
             /\ streak (model w1) = Js.Int 0.
Proof.
  destruct (toggling_mute_reloads_from_store typed_world)
    as (w1 & _ & _ & Hrun & _ & _ & _ & _ & Hkeep & _).
  exists w1. split; [exact Hrun|]. now rewrite (Hkeep eq_refl).
Defined.


(** X10. A click on a choice button of a round without answer ends the
    round with that choice selected and the hints as they were; the round is
    solved exactly when the button's number is the answer index, and failed
    otherwise.  So when the answer index is outside the choices (the parser
    lets such riddles through) no button wins: every click fails the round,
    and in the application it puts the streak to 0 and leaves the history
    in memory and in [localStorage] as they were. *)
Theorem only_the_answer_button_wins
    (riddle : RiddleData.Riddle) (s : GameScreen.Screen) (idx : nat) :
  GameScreen.showResult s = false ->
  (idx < List.length (RiddleData.choices riddle))%nat ->
  let s' := fst (GameScreen.clickChoice riddle idx s) in
  let outside :=
    ~ (0 <= RiddleData.answerIndex riddle
       < Z.of_nat (List.length (RiddleData.choices riddle))) in
  GameScreen.showResult s' = true
  /\ GameScreen.selected s' = Some (Z.of_nat idx)
  /\ GameScreen.revealedHints s' = GameScreen.revealedHints s
  /\ (GameScreen.is_solved s' = true
      <-> Z.of_nat idx = RiddleData.answerIndex riddle)
  /\ (GameScreen.is_failed s' = true
      <-> Z.of_nat idx <> RiddleData.answerIndex riddle)
  /\ (outside -> GameScreen.is_failed s' = true)
  /\ (outside ->
      forall env w url,
        GameState.status (gameState (model w)) = playing ->
        GameState.riddle (gameState (model w)) = Some riddle ->
        GameState.imageUrl (gameState (model w)) = Some url ->
        Js.truthy url = true ->
        gameScreen (model w) = Some s ->
        exists w1,
          clickChoice env idx w = Return w1
          /\ gameScreen (model w1) = Some s'
          /\ streak (model w1) = Js.Int 0
          /\ history (model w1) = history (model w)
          /\ newsquest_solved_history (localStorage w1)
             = newsquest_solved_history (localStorage w)).
Proof.
  intros Hfresh Hidx. cbv zeta.
  assert (Hclick : GameScreen.clickChoice riddle idx s
                   = GameScreen.handleSelect riddle (Z.of_nat idx) s).
  { unfold GameScreen.clickChoice. rewrite Hfresh.
    apply Nat.ltb_lt in Hidx. now rewrite Hidx. }
  rewrite Hclick. unfold GameScreen.handleSelect. rewrite Hfresh.
  unfold GameScreen.is_solved, GameScreen.is_failed. cbn [fst].
  cbn [GameScreen.showResult GameScreen.selected GameScreen.revealedHints
       GameScreen.isCorrect andb].
  assert (Hwrong : ~ (0 <= RiddleData.answerIndex riddle
                      < Z.of_nat (List.length (RiddleData.choices riddle))) ->
                   (Z.of_nat idx =? RiddleData.answerIndex riddle) = false).
  { intros Hout. apply Z.eqb_neq. lia. }
  repeat (split; [reflexivity|]).
  split; [apply Z.eqb_eq|]. split; [|split].
  - rewrite negb_true_iff. apply Z.eqb_neq.
  - intros Hout. now rewrite (Hwrong Hout).
  - intros Hout env w url Hst HR Hurl Htruthy Hscr.
    destruct w as [[g topic d muted h n scr] ls fx]. simpl in *. subst scr.
    assert (Hshow : shows_GameScreen g = true).
    { unfold shows_GameScreen. rewrite Hst, HR, Hurl. exact Htruthy. }
    unfold clickChoice, onScreen. simpl. rewrite HR, Hclick.
    unfold GameScreen.handleSelect. rewrite Hfresh, (Hwrong Hout).
    simpl. unfold handleGameComplete, updateStreak_in, setItem_streak. simpl.
    destruct (streak_room env "0"); [rewrite HR, Hurl|];
      simpl; unfold render; simpl; rewrite Hshow;
      (eexists; split; [reflexivity|]; now repeat split).
Qed.

Lemma only_the_answer_button_wins_witness :
  GameScreen.is_failed
    (fst (GameScreen.clickChoice odd_riddle 2 GameScreen.initial)) = true
  /\ GameScreen.is_solved
       (fst (GameScreen.clickChoice sample_riddle 2 GameScreen.initial)) = true
  /\ exists w1,
       clickChoice sample_env 0 odd_world = Return w1
       /\ streak (model w1) = Js.Int 0.
Proof.
  split; [|split].
  3: {
    destruct (only_the_answer_button_wins
                (Gemini.stamp "cats" medium odd_riddle) GameScreen.initial 0)
      as (_ & _ & _ & _ & _ & _ & Happ); [reflexivity | simpl; lia |].
    destruct (Happ ltac:(simpl; lia) sample_env odd_world
                "data:image/png;base64,QUJD" eq_refl eq_refl eq_refl eq_refl eq_refl)
      as (w1 & Hrun & _ & Hstreak & _).
    exists w1. split; [exact Hrun|exact Hstreak]. }
  - apply (only_the_answer_button_wins odd_riddle GameScreen.initial 2);
      [reflexivity | simpl; lia | simpl; lia].
  - apply (only_the_answer_button_wins sample_riddle GameScreen.initial 2);
      [reflexivity | simpl; lia | reflexivity].
Defined.




(** X16. The collection can be opened only from the menu and only when the
    history is not empty; opening it changes the phase and nothing else,
    and going back gives exactly the world there was before. *)
Theorem collection_view_round_trip (w : World) :
  (history (model w) = [] -> Menu.clickCollection w = w)
  /\ (GameState.status (gameState (model w)) <> idle ->
      Menu.clickCollection w = w)
  /\ (GameState.status (gameState (model w)) = idle ->
      history (model w) <> [] ->
      gameScreen (model w) = None ->
      GameState.status (gameState (model (Menu.clickCollection w))) = Types.history
      /\ history (model (Menu.clickCollection w)) = history (model w)
      /\ localStorage (Menu.clickCollection w) = localStorage w
      /\ Menu.clickBack (Menu.clickCollection w) = w).
Proof.
  destruct w as [[[st r u sel hr err sc] topic d muted h n scr] ls fx].
  unfold Menu.clickCollection, Menu.collection_shown, Menu.menu_shown.
  cbn [model gameState GameState.status history].
  split; [|split].
  - intros ->. simpl. now rewrite andb_false_r.
  - intros Hst. destruct st; try reflexivity. contradiction.
  - intros -> Hh Hscr. cbn [gameScreen] in Hscr. subst scr.
    destruct h as [|i h]; [contradiction|]. now repeat split.
Qed.

Lemma collection_view_witness :
  Menu.clickBack (Menu.clickCollection (reset answered_world))
  = reset answered_world.
Proof.
  apply (collection_view_round_trip (reset answered_world));
    [reflexivity | discriminate | reflexivity].
Defined.

End SessionFacts.

(** ** Further properties: the collection view and the share button *)

Module ScreenFacts.

Import Browser Runs.

(** X11. The context menu opened by a right click keeps its right edge
    inside the window, and its bottom edge too when the click was inside;
    it is placed at the click when it fits there; in a window at least 220
    pixels wide and 320 high, a click inside the window places the whole
    menu (200 by 160) inside. *)
Theorem context_menu_is_placed_inside
    (clientX clientY innerWidth innerHeight : Z) (item : HistoryItem.Item) :
  exists m,
    HistoryScreen.handleContextMenu clientX clientY innerWidth innerHeight item
    = Some m
    /\ HistoryScreen.item m = item
    /\ HistoryScreen.x m + 200 <= innerWidth
    /\ (clientY <= innerHeight -> HistoryScreen.y m + 160 <= innerHeight)
    /\ (clientX + 200 <= innerWidth -> HistoryScreen.x m = clientX)
    /\ (clientY + 160 <= innerHeight -> HistoryScreen.y m = clientY)
    /\ (220 <= innerWidth -> 320 <= innerHeight ->
        0 <= clientX <= innerWidth -> 0 <= clientY <= innerHeight ->
        0 <= HistoryScreen.x m /\ HistoryScreen.x m + 200 <= innerWidth
        /\ 0 <= HistoryScreen.y m /\ HistoryScreen.y m + 160 <= innerHeight).
Proof.
  unfold HistoryScreen.handleContextMenu. cbv zeta.
  eexists. split; [reflexivity|]. cbn [HistoryScreen.item HistoryScreen.x HistoryScreen.y].
  destruct (Z.gtb_spec (clientX + 200) innerWidth);
    destruct (Z.gtb_spec (clientY + 160) innerHeight);
    repeat split; lia.
Qed.

Lemma context_menu_witness :
  exists m,
    HistoryScreen.handleContextMenu 1000 700 1024 768 (Scenario.sample_item "q1")
    = Some m
    /\ 0 <= HistoryScreen.x m /\ HistoryScreen.x m + 200 <= 1024
    /\ 0 <= HistoryScreen.y m /\ HistoryScreen.y m + 160 <= 768.
Proof.
  destruct (context_menu_is_placed_inside 1000 700 1024 768 (Scenario.sample_item "q1"))
    as (m & Hm & _ & _ & _ & _ & _ & Hin).
  exists m. split; [exact Hm|]. apply Hin; lia.
Defined.

(** X12. [performAction] does nothing without an open menu.  With a menu
    open, the share action never throws and closes the menu, whatever
    [navigator] does.  The search action opens the search URL of the item,
    and nothing else, and closes the menu, when the topic holds no half of
    a surrogate pair on its own; when it holds one, [encodeURIComponent]
    throws: no window is opened and the menu is not closed.  The copy
    action writes the four lines of the item to the clipboard and closes
    the menu when there is a clipboard; without one it throws and the menu
    is not closed.  Where neither sharing nor the clipboard is supported,
    the share action only shows the alert that says the details were
    copied. *)
Theorem context_menu_actions (nav : Navigator) (m : HistoryScreen.ContextMenu) :
  (forall action, HistoryScreen.performAction nav action None = Return (None, []))
  /\ (exists did,
        HistoryScreen.performAction nav HistoryScreen.share_action (Some m)
        = Return (None, did))
  /\ (lone_surrogate (HistoryItem.topic (HistoryScreen.item m) ++ " news story")
      = false ->
      exists url,
        HistoryScreen.search_url (HistoryScreen.item m) = Return url
        /\ HistoryScreen.performAction nav HistoryScreen.search_action (Some m)
           = Return (None, [window_open url]))
  /\ (lone_surrogate (HistoryItem.topic (HistoryScreen.item m) ++ " news story")
      = true ->
      HistoryScreen.performAction nav HistoryScreen.search_action (Some m)
      = Throw Js.URIError)
  /\ (clipboard nav <> None ->
      HistoryScreen.performAction nav HistoryScreen.copy_action (Some m)
      = Return (None,
                [clipboard_writeText (HistoryScreen.copy_text (HistoryScreen.item m))]))
  /\ (clipboard nav = None ->
      exists e,
        HistoryScreen.performAction nav HistoryScreen.copy_action (Some m) = Throw e)
  /\ (share nav = None -> clipboard nav = None ->
      HistoryScreen.performAction nav HistoryScreen.share_action (Some m)
      = Return (None,
                [alert "Sharing not supported on this device. Details copied to clipboard!"]))
  /\ (share nav = None -> clipboard nav <> None ->
      HistoryScreen.performAction nav HistoryScreen.share_action (Some m)
      = Return (None,
                [clipboard_writeText (HistoryScreen.copy_text (HistoryScreen.item m));
                 alert "Sharing not supported on this device. Details copied to clipboard!"])).
Proof.
  split; [intros []; reflexivity|].
  unfold HistoryScreen.performAction, HistoryScreen.performCopy,
    HistoryScreen.search_url, encodeURIComponent.
  split; [|split; [|split]].
  - destruct (share nav); eexists; reflexivity.
  - intros ->. eexists. split; reflexivity.
  - intros ->. reflexivity.
  - destruct (clipboard nav) as [c|], (share nav) as [f|];
      repeat split; try reflexivity; try congruence;
      try (intros _; eexists; reflexivity); try (intros; discriminate).
Qed.

Lemma context_menu_actions_witness :
  HistoryScreen.performAction no_share_navigator HistoryScreen.share_action
    (Some (HistoryScreen.mkContextMenu 10 10 (Scenario.sample_item "q1")))
  = Return (None,
            [clipboard_writeText
               (HistoryScreen.copy_text (Scenario.sample_item "q1"));
             alert "Sharing not supported on this device. Details copied to clipboard!"])
  /\ HistoryScreen.performAction no_share_navigator HistoryScreen.search_action
       (Some (HistoryScreen.mkContextMenu 10 10 (Scenario.sample_item "q1")))
     = Return (None,
               [window_open "https://www.google.com/search?q=topic%20news%20story"])
  /\ HistoryScreen.performAction no_share_navigator HistoryScreen.search_action
       (Some (HistoryScreen.mkContextMenu 10 10
                (HistoryItem.mkItem "1a" 1 broken_topic "q?" None "fact" "data:," None)))
     = Throw Js.URIError.
Proof.
  destruct (context_menu_actions no_share_navigator
              (HistoryScreen.mkContextMenu 10 10 (Scenario.sample_item "q1")))
    as (_ & _ & Hsearch & _ & _ & _ & _ & H).
  destruct (context_menu_actions no_share_navigator
              (HistoryScreen.mkContextMenu 10 10
                 (HistoryItem.mkItem "1a" 1 broken_topic "q?" None "fact" "data:," None)))
    as (_ & _ & _ & Hbroken & _).
  split; [|split].
  - apply H; [reflexivity|discriminate].
  - destruct (Hsearch eq_refl) as (url & Hurl & Hdone).
    vm_compute in Hurl. injection Hurl as <-. exact Hdone.
  - apply Hbroken. reflexivity.
Defined.


Lemma unhex_hex (k : nat) : (k < 16)%nat -> unhex (hex k) = Some k.
Proof.
  intros Hk. do 16 (destruct k as [|k]; [reflexivity|]). lia.
Qed.

Lemma hex_unreserved (k : nat) : (k < 16)%nat -> unreserved (hex k) = true.
Proof.
  intros Hk. do 16 (destruct k as [|k]; [reflexivity|]). lia.
Qed.

Lemma nat_of_ascii_bound (c : ascii) : (nat_of_ascii c < 256)%nat.
Proof. destruct c as [[] [] [] [] [] [] [] []]; vm_compute; lia. Qed.

Lemma unreserved_not_percent (c : ascii) :
  unreserved c = true -> (c =? "%")%char = false.
Proof.
  intros H. destruct (Ascii.eqb_spec c "%") as [->|]; [discriminate H|reflexivity].
Qed.

Lemma unescape_encode (s : string) :
  unescape (percent_encode s) = Some s.
Proof.
  induction s as [|c r IH]; [reflexivity|].
  cbn [percent_encode]. destruct (unreserved c) eqn:Hc.
  - cbn [append unescape]. rewrite (unreserved_not_percent c Hc), IH. reflexivity.
  - unfold escape. cbn [append unescape]. rewrite Ascii.eqb_refl.
    pose proof (nat_of_ascii_bound c) as Hb.
    assert (Hhi : (nat_of_ascii c / 16 < 16)%nat)
      by (apply Nat.Div0.div_lt_upper_bound; lia).
    assert (Hlo : (nat_of_ascii c mod 16 < 16)%nat)
      by (apply Nat.mod_upper_bound; lia).
    rewrite (unhex_hex _ Hhi), (unhex_hex _ Hlo), IH.
    rewrite <- Nat.div_mod_eq, ascii_nat_embedding. reflexivity.
Qed.

Lemma encode_query_safe (s : string) :
  forallb query_safe (list_ascii_of_string (percent_encode s)) = true.
Proof.
  induction s as [|c r IH]; [reflexivity|].
  cbn [percent_encode]. destruct (unreserved c) eqn:Hc.
  - cbn [append list_ascii_of_string forallb]. unfold query_safe at 1.
    now rewrite Hc, IH.
  - unfold escape. cbn [append list_ascii_of_string forallb].
    pose proof (nat_of_ascii_bound c) as Hb.
    assert (Hhi : (nat_of_ascii c / 16 < 16)%nat)
      by (apply Nat.Div0.div_lt_upper_bound; lia).
    assert (Hlo : (nat_of_ascii c mod 16 < 16)%nat)
      by (apply Nat.mod_upper_bound; lia).
    unfold query_safe at 1 2 3.
    rewrite (hex_unreserved _ Hhi), (hex_unreserved _ Hlo), IH. reflexivity.
Qed.

Lemma append_inv_head (p a b : string) : p ++ a = p ++ b -> a = b.
Proof.
  induction p as [|c p IH]; simpl; [tauto|].
  intros H. injection H as H. now apply IH.
Qed.

Lemma list_of_append (a b : string) :
  list_ascii_of_string (a ++ b)
  = (list_ascii_of_string a ++ list_ascii_of_string b)%list.
Proof. induction a as [|c a IH]; simpl; [reflexivity|now rewrite IH]. Qed.

Lemma append_inv_tail (a b t : string) : a ++ t = b ++ t -> a = b.
Proof.
  intros H. apply (f_equal list_ascii_of_string) in H.
  rewrite !list_of_append in H. apply app_inv_tail in H.
  rewrite <- (string_of_list_ascii_of_string a),
          <- (string_of_list_ascii_of_string b).
  now rewrite H.
Qed.

(** What a search URL is made of, when there is one. *)
Lemma search_url_returned (item : HistoryItem.Item) (url : string) :
  HistoryScreen.search_url item = Return url ->
  url = "https://www.google.com/search?q="
          ++ percent_encode (HistoryItem.topic item ++ " news story").
Proof.
  unfold HistoryScreen.search_url, encodeURIComponent.
  destruct (lone_surrogate (HistoryItem.topic item ++ " news story")); simpl;
    [discriminate|].
  intros H. injection H as <-. reflexivity.
Qed.

(** X13. When the topic of an item holds no half of a surrogate pair on its
    own, its search URL is the Google search address followed by a query
    made only of unreserved characters and [%XX] escapes, whatever else the
    topic holds (spaces, [&], [#], quotes, characters of other scripts),
    and nothing is lost: the text can be read back from the query.  When
    the topic holds such a half, there is no URL: [encodeURIComponent]
    throws.  Two items that get the same search URL have the same topic. *)
Theorem search_url_is_escaped (item : HistoryItem.Item) :
  (lone_surrogate (HistoryItem.topic item ++ " news story") = false ->
   exists q,
     HistoryScreen.search_url item
     = Return ("https://www.google.com/search?q=" ++ q)
     /\ forallb query_safe (list_ascii_of_string q) = true
     /\ unescape q = Some (HistoryItem.topic item ++ " news story"))
  /\ (lone_surrogate (HistoryItem.topic item ++ " news story") = true ->
      HistoryScreen.search_url item = Throw Js.URIError)
  /\ (forall item' url,
        HistoryScreen.search_url item = Return url ->
        HistoryScreen.search_url item' = Return url ->
        HistoryItem.topic item = HistoryItem.topic item').
Proof.
  split; [|split].
  - intros Hwhole.
    exists (percent_encode (HistoryItem.topic item ++ " news story")).
    split; [|split; [apply encode_query_safe|apply unescape_encode]].
    unfold HistoryScreen.search_url, encodeURIComponent. now rewrite Hwhole.
  - intros Hhalf. unfold HistoryScreen.search_url, encodeURIComponent.
    now rewrite Hhalf.
  - intros item' url H H'.
    apply search_url_returned in H. apply search_url_returned in H'.
    rewrite H in H'. apply append_inv_head in H'.
    apply (f_equal unescape) in H'. rewrite !unescape_encode in H'.
    injection H' as H'. now apply append_inv_tail in H'.
Qed.

Lemma search_url_witness :
  HistoryScreen.search_url
    (HistoryItem.mkItem "1a" 1 "R&D #1" "q?" None "fact" "data:," None)
  = Return "https://www.google.com/search?q=R%26D%20%231%20news%20story"
  /\ HistoryScreen.search_url
       (HistoryItem.mkItem "1a" 1 broken_topic "q?" None "fact" "data:," None)
     = Throw Js.URIError.
Proof.
  destruct (search_url_is_escaped
              (HistoryItem.mkItem "1a" 1 "R&D #1" "q?" None "fact" "data:," None))
    as (Hwhole & _).
  destruct (search_url_is_escaped
              (HistoryItem.mkItem "1a" 1 broken_topic "q?" None "fact" "data:," None))
    as (_ & Hhalf & _).
  split.
  - destruct (Hwhole eq_refl) as (q & Hurl & _ & Hback).
    rewrite Hurl. f_equal.
    vm_compute in Hurl. injection Hurl as <-. reflexivity.
  - apply Hhalf. reflexivity.
Defined.


Lemma handleShare_runs nav page riddle imageUrl shareState :
  shareState <> Share.sharing ->
  Share.handleShare nav page riddle imageUrl shareState
  = match Share.try_share nav page riddle imageUrl with
    | (Return s, did) => Share.mkRun s did true
    | (Throw e, did) =>
        let '(s, did') := Share.fallback nav page riddle imageUrl e in
        Share.mkRun s (did ++ did')%list true
    end.
Proof.
  intros Hst. unfold Share.handleShare.
  destruct shareState; [reflexivity | contradiction | reflexivity ..].
Qed.

Ltac share_cases nav :=
  unfold Share.try_share, Share.fallback, Share.after_timer;
  destruct (share nav) as [settles|];
  [ destruct (fetch_blob nav) as [b|e];
    [ destruct (canShare nav) as [[|]|];
      match goal with
      | |- context [settles ?flag] => destruct (settles flag) as [u|e] eqn:Hs
      end
    | ]
  | change (Js.name (Js.error "Web Share API not supported") =? "AbortError")%string
      with false ];
  cbn [Js.bind];
  try match goal with
      | |- context [(Js.name ?x =? "AbortError")%string] =>
          destruct (Js.name x =? "AbortError")%string eqn:Hname
      end;
  cbn [negb];
  try (destruct (clipboard nav) as [[c|ec]|]);
  cbn [Share.settled Share.timer Share.did app].

Lemma share_run_settles nav page riddle imageUrl :
  let r :=
    match Share.try_share nav page riddle imageUrl with
    | (Return s, did) => Share.mkRun s did true
    | (Throw e, did) =>
        let '(s, did') := Share.fallback nav page riddle imageUrl e in
        Share.mkRun s (did ++ did')%list true
    end in
  Share.settled r <> Share.sharing
  /\ Share.timer r = true
  /\ Share.after_timer r = Share.idle.
Proof.
  cbv zeta. share_cases nav; (split; [discriminate|split; reflexivity]).
Qed.

Lemma share_run_success nav page riddle imageUrl :
  let r :=
    match Share.try_share nav page riddle imageUrl with
    | (Return s, did) => Share.mkRun s did true
    | (Throw e, did) =>
        let '(s, did') := Share.fallback nav page riddle imageUrl e in
        Share.mkRun s (did ++ did')%list true
    end in
  Share.settled r = Share.success <->
  exists settles,
    share nav = Some settles
    /\ (exists b, fetch_blob nav = Return b)
    /\ (exists u,
          settles (match canShare nav with Some true => true | _ => false end)
          = Return u).
Proof.
  cbv zeta. share_cases nav; split.
  all: try (intros (s' & Hs' & (b' & Hb') & (u' & Hu'));
            try discriminate Hs'; try discriminate Hb';
            try (injection Hs' as <-; rewrite Hs in Hu'; discriminate Hu');
            reflexivity).
  all: try (intros H; discriminate H).
  all: try (intros _; eexists; split; [reflexivity|]; split; eexists;
            (eassumption || reflexivity)).
Qed.

Lemma share_run_cancel nav page riddle imageUrl :
  let r :=
    match Share.try_share nav page riddle imageUrl with
    | (Return s, did) => Share.mkRun s did true
    | (Throw e, did) =>
        let '(s, did') := Share.fallback nav page riddle imageUrl e in
        Share.mkRun s (did ++ did')%list true
    end in
  forall settles b e,
    share nav = Some settles ->
    fetch_blob nav = Return b ->
    settles (match canShare nav with Some true => true | _ => false end) = Throw e ->
    Js.name e = "AbortError" ->
    Share.settled r = Share.idle
    /\ forall what,
         In what (Share.did r) ->
         exists title text url files, what = navigator_share title text url files.
Proof.
  cbv zeta. share_cases nav; intros s' b' e' Hs' Hb' He' Hn'.
  all: try discriminate Hs'; try discriminate Hb'.
  all: injection Hs' as <-; rewrite Hs in He'.
  all: try discriminate He'; injection He' as <-.
  all: try (apply String.eqb_neq in Hname; contradiction).
  all: split; [reflexivity|]; intros what [<-|[]]; eauto.
Qed.

Lemma share_run_copied nav page riddle imageUrl :
  let r :=
    match Share.try_share nav page riddle imageUrl with
    | (Return s, did) => Share.mkRun s did true
    | (Throw e, did) =>
        let '(s, did') := Share.fallback nav page riddle imageUrl e in
        Share.mkRun s (did ++ did')%list true
    end in
  Share.settled r = Share.copied ->
  In (clipboard_writeText (Share.shareText riddle)) (Share.did r)
  /\ exists name, In (download imageUrl name) (Share.did r).
Proof.
  cbv zeta. share_cases nav; intros H.
  all: try discriminate H.
  all: split; [simpl; tauto | eexists; simpl; eauto].
Qed.


(** X14. [handleShare] does nothing while a share is under way.  Otherwise
    it never ends in the state [sharing], always sets the timer, and the
    state is [idle] once the timer has fired.  It ends in [success] exactly
    when the Web Share API is there, the image could be fetched and the
    share call resolved.  When the player cancels the share sheet (an
    [AbortError]) it ends in [idle] and neither writes to the clipboard nor
    downloads the image; it ends in [copied] only after having written the
    share text to the clipboard and started the download. *)
Theorem share_button_flow
    (nav : Navigator) (page : Share.Page) (riddle : RiddleData.Riddle)
    (imageUrl : string) (shareState : Share.ShareState) :
  let r := Share.handleShare nav page riddle imageUrl shareState in
  (shareState = Share.sharing -> r = Share.mkRun Share.sharing [] false)
  /\ (shareState <> Share.sharing ->
      Share.settled r <> Share.sharing
      /\ Share.timer r = true
      /\ Share.after_timer r = Share.idle
      /\ (Share.settled r = Share.success <->
          exists settles,
            share nav = Some settles
            /\ (exists b, fetch_blob nav = Return b)
            /\ (exists u,
                  settles (match canShare nav with Some true => true | _ => false end)
                  = Return u))
      /\ (forall settles b e,
            share nav = Some settles ->
            fetch_blob nav = Return b ->
            settles (match canShare nav with Some true => true | _ => false end)
            = Throw e ->
            Js.name e = "AbortError" ->
            Share.settled r = Share.idle
            /\ forall what,
                 In what (Share.did r) ->
                 exists title text url files,
                   what = navigator_share title text url files)
      /\ (Share.settled r = Share.copied ->
          In (clipboard_writeText (Share.shareText riddle)) (Share.did r)
          /\ exists name, In (download imageUrl name) (Share.did r))).
Proof.
  cbv zeta. split; [intros ->; reflexivity|]. intros Hst.
  rewrite (handleShare_runs nav page riddle imageUrl shareState Hst).
  split; [apply share_run_settles|]. split; [apply share_run_settles|].
  split; [apply share_run_settles|].
  split; [apply share_run_success|]. split; [apply share_run_cancel|].
  apply share_run_copied.
Qed.

Lemma share_button_flow_witness :
  Share.settled
    (Share.handleShare cancelling_navigator sample_page Scenario.sample_riddle
       "data:image/png;base64,QUJD" Share.idle)
  = Share.idle
  /\ Share.settled
       (Share.handleShare no_share_navigator sample_page Scenario.sample_riddle
          "data:image/png;base64,QUJD" Share.success)
     = Share.copied.
Proof.
  split.
  - destruct (share_button_flow cancelling_navigator sample_page
                Scenario.sample_riddle "data:image/png;base64,QUJD" Share.idle)
      as [_ H].
    destruct (H ltac:(discriminate)) as (_ & _ & _ & _ & Hcancel & _).
    apply (Hcancel (fun _ => Throw (Js.mkError "AbortError" "Share canceled")) tt
             (Js.mkError "AbortError" "Share canceled"));
      reflexivity.
  - reflexivity.
Defined.

End ScreenFacts.
